(** * libcylc: the PYRO message header codec and message receipt

    A shallow embedding of [src/libcylc/message.c], together with the
    declarations it uses from [message.h], [hmac.h] and [configuration.h]
    and [setConfig] of [configuration.c].

    C values are embedded as follows.
    - [int] and [size_t] values are integers of [Z]; conversions between
      the two and the narrowing casts to [unsigned char] are written out
      ([int_of], [size_t_of], [uchar]).
    - A byte is a [Z] in [0, 256); a buffer is a [list Z].
    - A pointer argument is [option (list Z)]: [None] is [NULL], [Some b]
      points to an object whose bytes are [b].
    - [exit(1)] and undefined behaviour are results of the [outcome] type,
      threaded with a bind. *)

From Stdlib Require Import String Ascii.
From Stdlib Require Import ZArith List Bool Lia.
Import ListNotations.
Local Open Scope Z_scope.

(** ** Outcomes of a C call *)

(** The diagnostics written to [stderr] before [exit(1)]. *)
Inductive failure : Set :=
  | SequenceOutOfRange   (* createMsgHeader, line 52 *)
  | InvalidMsgType       (* getMessage, line 96 *)
  | HmacMismatch         (* getMessage, line 105 *)
  | NotSymmetric         (* getMessage, line 111 *)
  | SizeMismatch         (* parseMessageHeader, line 130 *)
  | BadMagicOrVersion    (* parseMessageHeader, line 139 *)
  | ChecksumMismatch.    (* parseMessageHeader, line 166 *)

Definition diagnostic (f : failure) : String.string :=
  (match f with
  | SequenceOutOfRange => "sequenceNr must be 0-65535 (unsigned short)"
  | InvalidMsgType => "invalid msg type received"
  | HmacMismatch => "message hmac mismatch"
  | NotSymmetric => "hmac key config not symmetric"
  | SizeMismatch => "msg header data size mismatch"
  | BadMagicOrVersion => "invalid msg or unsupported protocol version"
  | ChecksumMismatch => "msg header checksum mismatch"
  end)%string.

(** The places where the source steps outside defined behaviour. *)
Inductive undefined : Set :=
  | StrlenNull           (* strlen applied to NULL *)
  | StrlenUnterminated   (* strlen runs past the end of the object *)
  | StoreNull            (* assignment through NULL *)
  | StoreUnassigned.     (* store through a pointer that was never assigned *)

Inductive outcome (A : Type) : Type :=
  | Returns (a : A)
  | Exits (f : failure)
  | Undefined (u : undefined).

Arguments Returns {A} a.
Arguments Exits {A} f.
Arguments Undefined {A} u.

Definition bind {A B : Type} (m : outcome A) (k : A -> outcome B) : outcome B :=
  match m with
  | Returns a => k a
  | Exits f => Exits f
  | Undefined u => Undefined u
  end.

Notation "x <- m ;; k" := (bind m (fun x => k))
  (at level 61, m at next level, right associativity).

(** ** Machine integers *)

(** [size_t] has 64 bits and [int] 32.  An [int] result that leaves the
    range is taken to wrap around, as the conversion from [size_t] does. *)

Definition uchar (x : Z) : Z := x mod 256.
Definition size_t_of (x : Z) : Z := x mod 2 ^ 64.
Definition int_of (x : Z) : Z := (x + 2 ^ 31) mod 2 ^ 32 - 2 ^ 31.

(** ** Constants of message.h and hmac.h *)

Definition _MSG_CONNECT : Z := 1.
Definition _MSG_CONNECTOK : Z := 2.
Definition _MSG_CONNECTFAIL : Z := 3.
Definition _MSG_INVOKE : Z := 4.
Definition _MSG_RESULT : Z := 5.

Definition _FLAGS_EXCEPTION : Z := Z.shiftl 1 0.
Definition _FLAGS_COMPRESSED : Z := Z.shiftl 1 1.
Definition _FLAGS_ONEWAY : Z := Z.shiftl 1 2.
Definition _FLAGS_HMAC : Z := Z.shiftl 1 3.
Definition _FLAGS_BATCH : Z := Z.shiftl 1 4.

Definition PYRO_MAGIC : Z := 0x34e9.
Definition PROTOCOL_VERSION : Z := 44.
Definition HEADER_SIZE : Z := 38.
Definition hmac_size : Z := 20.

(** ** The keyed hash *)

Module SHA1.

Definition w32 (x : Z) : Z := x mod 2 ^ 32.

Definition rotl (n x : Z) : Z :=
  w32 (Z.lor (Z.shiftl x n) (Z.shiftr x (32 - n))).

Definition be32 (a b c d : Z) : Z :=
  Z.lor (Z.shiftl a 24) (Z.lor (Z.shiftl b 16) (Z.lor (Z.shiftl c 8) d)).

Definition bytes_of_w32 (x : Z) : list Z :=
  [Z.shiftr x 24 mod 256; Z.shiftr x 16 mod 256; Z.shiftr x 8 mod 256; x mod 256].

Definition bytes_of_w64 (x : Z) : list Z :=
  bytes_of_w32 (Z.shiftr x 32 mod 2 ^ 32) ++ bytes_of_w32 (x mod 2 ^ 32).

(** The message followed by 0x80, zeros up to 56 mod 64, and the bit
    length as a 64-bit big-endian number. *)
Definition pad (m : list Z) : list Z :=
  let l := Z.of_nat (length m) in
  let z := (55 - l) mod 64 in
  m ++ [0x80] ++ repeat 0 (Z.to_nat z) ++ bytes_of_w64 (8 * l).

Fixpoint words (bs : list Z) : list Z :=
  match bs with
  | a :: b :: c :: d :: rest => be32 a b c d :: words rest
  | _ => []
  end.

Fixpoint blocks (n : nat) (ws : list Z) : list (list Z) :=
  match n with
  | O => []
  | S n' =>
      match ws with
      | [] => []
      | _ => firstn 16 ws :: blocks n' (skipn 16 ws)
      end
  end.

(** The schedule is kept newest word first: the head is w(t-1). *)
Fixpoint extend (n : nat) (rev_w : list Z) : list Z :=
  match n with
  | O => rev_w
  | S n' =>
      let w := rotl 1 (Z.lxor (nth 2 rev_w 0)
                       (Z.lxor (nth 7 rev_w 0)
                        (Z.lxor (nth 13 rev_w 0) (nth 15 rev_w 0)))) in
      extend n' (w :: rev_w)
  end.

Definition schedule (block : list Z) : list Z :=
  rev (extend 64 (rev block)).

Definition state : Type := (Z * Z * Z * Z * Z)%type.

Definition f (t : nat) (b c d : Z) : Z :=
  if (t <? 20)%nat then Z.lor (Z.land b c) (Z.land (w32 (Z.lnot b)) d)
  else if (t <? 40)%nat then Z.lxor b (Z.lxor c d)
  else if (t <? 60)%nat then
    Z.lor (Z.land b c) (Z.lor (Z.land b d) (Z.land c d))
  else Z.lxor b (Z.lxor c d).

Definition k (t : nat) : Z :=
  if (t <? 20)%nat then 0x5A827999
  else if (t <? 40)%nat then 0x6ED9EBA1
  else if (t <? 60)%nat then 0x8F1BBCDC
  else 0xCA62C1D6.

Fixpoint rounds (t : nat) (ws : list Z) (s : state) : state :=
  match ws with
  | [] => s
  | w :: ws' =>
      let '(a, b, c, d, e) := s in
      let tmp := w32 (rotl 5 a + f t b c d + e + k t + w) in
      rounds (S t) ws' (tmp, a, rotl 30 b, c, d)
  end.

Definition compress (s : state) (block : list Z) : state :=
  let '(a, b, c, d, e) := s in
  let '(a', b', c', d', e') := rounds 0 (schedule block) s in
  (w32 (a + a'), w32 (b + b'), w32 (c + c'), w32 (d + d'), w32 (e + e')).

Definition init : state :=
  (0x67452301, 0xEFCDAB89, 0x98BADCFE, 0x10325476, 0xC3D2E1F0).

Definition digest_of (s : state) : list Z :=
  let '(a, b, c, d, e) := s in
  bytes_of_w32 a ++ bytes_of_w32 b ++ bytes_of_w32 c
    ++ bytes_of_w32 d ++ bytes_of_w32 e.

Definition sha1 (m : list Z) : list Z :=
  let p := pad m in
  digest_of (fold_left compress (blocks (length p) (words p)) init).

End SHA1.

Module HMAC.

Definition block_size : nat := 64.

Definition xor_pad (c : Z) (key : list Z) : list Z :=
  map (fun b => Z.lxor b c) (key ++ repeat 0 (block_size - length key)).

Definition hmac (key msg : list Z) : list Z :=
  let key' := if (block_size <? length key)%nat then SHA1.sha1 key else key in
  SHA1.sha1 (xor_pad 0x5c key' ++ SHA1.sha1 (xor_pad 0x36 key' ++ msg)).

End HMAC.

(** Modelled from the spec: [hmac_sha1] is declared in [hmac.h]; its
    definition is not among the sources.  The declaration's comment asks for
    the hashed message authentication code with SHA-1 of the [inlen] bytes
    at [in] under the [keylen] bytes at [key], written to a 20-byte result
    buffer; the specification calls it a standard keyed-hash construction
    with a 20-byte digest.  The model is HMAC (RFC 2104) over SHA-1
    (FIPS 180), and returns the result buffer. *)
Definition hmac_sha1 (key : list Z) (keylen : Z) (data : list Z) (inlen : Z)
  : list Z :=
  HMAC.hmac (firstn (Z.to_nat keylen) key) (firstn (Z.to_nat inlen) data).

Definition bytes_of_string (s : String.string) : list Z :=
  map (fun c => Z.of_N (N_of_ascii c)) (String.list_ascii_of_string s).

(** ** C strings and memory *)

Definition NUL : Z := 0.

(** Index of the first NUL byte of an object, if it holds one. *)
Fixpoint first_nul (b : list Z) : option nat :=
  match b with
  | [] => None
  | c :: rest => if c =? NUL then Some O else option_map S (first_nul rest)
  end.

Definition strlen (s : option (list Z)) : outcome Z :=
  match s with
  | None => Undefined StrlenNull
  | Some b =>
      match first_nul b with
      | Some n => Returns (Z.of_nat n)
      | None => Undefined StrlenUnterminated
      end
  end.

(** [memcmp(a, b, n)]: zero when the first [n] bytes agree, otherwise the
    difference of the first pair that differs. *)
Fixpoint memcmp (a b : list Z) (n : nat) : Z :=
  match n with
  | O => 0
  | S n' =>
      let x := hd 0 a in
      let y := hd 0 b in
      if x =? y then memcmp (tl a) (tl b) n' else x - y
  end.

(** [memset(buf, c, n)] of a fresh array of [n] bytes. *)
Definition memset (c : Z) (n : Z) : list Z := repeat (uchar c) (Z.to_nat n).

(** [buf[i]] *)
Definition at_ (buf : list Z) (i : nat) : Z := nth i buf 0.

(** ** configuration.h, configuration.c *)

Record Configuration : Set := mkConfiguration {
  hmac_key : option (list Z);
  keyLen : Z
}.

(** The global [config] before any call of [setConfig]: a zeroed object. *)
Definition config_unset : Configuration :=
  {| hmac_key := None; keyLen := 0 |}.

Definition setConfig (key : option (list Z)) : outcome Configuration :=
  n <- strlen key ;;
  match key with
  | None => Undefined StrlenNull
  | Some k =>
      Returns {| hmac_key := Some (firstn (Z.to_nat (n + 1)) k); keyLen := n |}
  end.

(** [ptr != NULL] *)
Definition is_configured (key : option (list Z)) : bool :=
  match key with Some _ => true | None => false end.

(** ** message.h *)

(** The value of a pointer variable: the object it was made to point to,
    or nothing when the variable was never assigned. *)
Inductive pointer : Set :=
  | Unassigned
  | Object (content : list Z).

Record Message : Set := mkMessage {
  msg_type : Z;
  msg_flags : Z;
  msg_sequence : Z;
  msg_data : pointer
}.

(** [memcpy(dest, src, n)] for a destination held in a pointer variable:
    the object afterwards.  Storing through a pointer that was never
    assigned is undefined. *)
Definition memcpy (dest : pointer) (src : list Z) (n : nat) : outcome pointer :=
  match dest with
  | Unassigned => Undefined StoreUnassigned
  | Object o => Returns (Object (firstn n src ++ skipn n o))
  end.

Record MessageHeader : Set := mkMessageHeader {
  header_type : Z;
  header_flags : Z;
  header_sequence : Z;
  header_datasize : Z;
  header_hmac : list Z
}.

(** ** createMsgHeader *)

Definition char_P : Z := 80.
Definition char_Y : Z := 89.
Definition char_R : Z := 82.
Definition char_O : Z := 79.

(** Line 56: the sum is formed in [size_t] (because of [dataLen]) after the
    [int] addition [msgtype + PROTOCOL_VERSION], and narrowed to [int]. *)
Definition headerchecksum_of (msgtype dataLen flags sequenceNr : Z) : Z :=
  let s0 := int_of (msgtype + PROTOCOL_VERSION) in
  let s1 := size_t_of (size_t_of s0 + dataLen) in
  let s2 := size_t_of (s1 + size_t_of flags) in
  let s3 := size_t_of (s2 + size_t_of sequenceNr) in
  let s4 := size_t_of (s3 + PYRO_MAGIC) in
  int_of s4.

(** Lines 58-77: the 38 bytes stored into [header]. *)
Definition header_bytes (msgtype dataLen flags sequenceNr headerchecksum : Z)
    (bodyhmac : list Z) : list Z :=
  [ char_P; char_Y; char_R; char_O;
    uchar (Z.shiftr PROTOCOL_VERSION 8);
    uchar (Z.land PROTOCOL_VERSION 0xff);
    uchar (Z.shiftr msgtype 8);
    uchar (Z.land msgtype 0xff);
    uchar (Z.shiftr flags 8);
    uchar (Z.land flags 0xff);
    uchar (Z.shiftr sequenceNr 8);
    uchar (Z.land sequenceNr 0xff);
    uchar (Z.land (Z.shiftr dataLen 24) 0xff);
    uchar (Z.land (Z.shiftr dataLen 16) 0xff);
    uchar (Z.land (Z.shiftr dataLen 8) 0xff);
    uchar (Z.land dataLen 0xff);
    uchar (Z.shiftr headerchecksum 8);
    uchar (Z.land headerchecksum 0xff) ]
  ++ firstn (Z.to_nat hmac_size) bodyhmac.

(** Lines 40-48: the flags and the digest once the configuration has been
    consulted. *)
Definition sign_body (config : Configuration) (data : list Z) (dataLen flags : Z)
  : Z * list Z :=
  match hmac_key config with
  | Some key =>
      (Z.lor flags _FLAGS_HMAC, hmac_sha1 key (keyLen config) data dataLen)
  | None => (flags, memset 0 hmac_size)
  end.

(** Lines 37-38: [if (data == NULL) *data = '\0';] *)
Definition null_guard (data : option (list Z)) : outcome (list Z) :=
  match data with
  | None => Undefined StoreNull
  | Some d => Returns d
  end.

(** Lines 40-79, with [data] known to point to [d] and [dataLen] computed. *)
Definition build_header (config : Configuration) (msgtype : Z) (d : list Z)
    (dataLen flags sequenceNr : Z) : outcome (list Z) :=
  let '(flags, bodyhmac) := sign_body config d dataLen flags in
  if sequenceNr >? 0xffff then Exits SequenceOutOfRange
  else
    let headerchecksum := headerchecksum_of msgtype dataLen flags sequenceNr in
    Returns (header_bytes msgtype dataLen flags sequenceNr headerchecksum bodyhmac).

(** The result is the content of the first 38 bytes of [header]. *)
Definition createMsgHeader (config : Configuration) (msgtype : Z)
    (data : option (list Z)) (flags sequenceNr : Z) : outcome (list Z) :=
  dataLen <- strlen data ;;
  d <- null_guard data ;;
  build_header config msgtype d dataLen flags sequenceNr.

(** ** parseMessageHeader *)

(** The statement pair [x <<= 8; x |= b & 0xff;] on an [int]. *)
Definition shl8_or (x b : Z) : Z :=
  Z.lor (int_of (Z.shiftl x 8)) (Z.land b 0xff).

Definition version_of (h : list Z) : Z :=
  Z.lor (Z.shiftl (at_ h 4) 8) (at_ h 5).

Definition type_of (h : list Z) : Z :=
  shl8_or (Z.land (at_ h 6) 0xff) (at_ h 7).

Definition flags_of (h : list Z) : Z :=
  shl8_or (Z.land (at_ h 8) 0xff) (at_ h 9).

Definition sequence_of (h : list Z) : Z :=
  shl8_or (Z.land (at_ h 10) 0xff) (at_ h 11).

Definition datasize_of (h : list Z) : Z :=
  shl8_or (shl8_or (shl8_or (Z.land (at_ h 12) 0xff) (at_ h 13)) (at_ h 14))
          (at_ h 15).

(** Line 160; the [int] sum is wrapped once, which equals wrapping after
    each addition. *)
Definition currentchecksum_of (h : list Z) : Z :=
  Z.land
    (int_of (type_of h + version_of h + datasize_of h + flags_of h
             + sequence_of h + PYRO_MAGIC))
    0xffff.

(** Lines 161-163. *)
Definition embedded_checksum (h : list Z) : Z :=
  shl8_or (Z.land (at_ h 16) 0xff) (at_ h 17).

Definition bad_magic_or_version (h : list Z) : bool :=
  negb (at_ h 0 =? char_P) || negb (at_ h 1 =? char_Y)
  || negb (at_ h 2 =? char_R) || negb (at_ h 3 =? char_O)
  || negb (version_of h =? PROTOCOL_VERSION).

(** Lines 134-172: what [parseMessageHeader] does once the size test of
    line 128 has let the buffer through. *)
Definition decode_fields (h : list Z) : outcome MessageHeader :=
  if bad_magic_or_version h then Exits BadMagicOrVersion
  else if negb (currentchecksum_of h =? embedded_checksum h)
  then Exits ChecksumMismatch
  else
    Returns {| header_type := type_of h;
               header_flags := flags_of h;
               header_sequence := sequence_of h;
               header_datasize := datasize_of h;
               header_hmac :=
                 firstn (Z.to_nat hmac_size) (skipn 18 h) |}.

Definition parseMessageHeader (headerdata : option (list Z))
  : outcome MessageHeader :=
  match headerdata with
  | None => Exits SizeMismatch
  | Some h =>
      n <- strlen headerdata ;;
      if negb (n =? HEADER_SIZE) then Exits SizeMismatch
      else decode_fields h
  end.

(** ** getMessage *)

(** The transport is the sequence of bytes still to arrive on the socket.
    [read(fd, buf, count)] takes up to [count] of them, stores them at the
    start of [buf] and returns how many it took; it returns fewer than
    [count] only when the stream has no more.  The result is the return
    value, the buffer afterwards and the bytes left on the stream.  A
    [read] that fails with -1 is not part of the model. *)
Definition read (sock buf : list Z) (count : nat) : Z * list Z * list Z :=
  let got := firstn count sock in
  (Z.of_nat (length got), got ++ skipn (length got) buf, skipn count sock).

(** Lines 115-120.  [msg] is a local that the source does not initialise;
    its three numbers are assigned, its pointer [data] never is, and line
    118 stores 20 bytes through it. *)
Definition return_message (header : MessageHeader) (data sock : list Z)
  : outcome (Message * list Z) :=
  let msg := {| msg_type := header_type header;
                msg_flags := header_flags header;
                msg_sequence := header_sequence header;
                msg_data := Unassigned |} in
  stored <- memcpy (msg_data msg) data (Z.to_nat hmac_size) ;;
  Returns ({| msg_type := msg_type msg;
              msg_flags := msg_flags msg;
              msg_sequence := msg_sequence msg;
              msg_data := stored |}, sock).

(** Lines 94-120: what [getMessage] does with the header that
    [parseMessageHeader] returned.  [data0] is the content of the local
    array [data[256]] on entry, which the source does not initialise. *)
Definition receive_body (config : Configuration) (data0 sock : list Z)
    (requiredMsgType : Z) (header : MessageHeader)
  : outcome (Message * list Z) :=
  if negb (requiredMsgType =? 0)
     && negb (header_type header =? requiredMsgType)
  then Exits InvalidMsgType
  else
    let '(dataLen, data, sock') := read sock data0 256 in
    let flagged := negb (Z.land (header_flags header) _FLAGS_HMAC =? 0) in
    match flagged, hmac_key config with
    | true, Some key =>
        let bodyhmac := hmac_sha1 key (keyLen config) data dataLen in
        if memcmp (header_hmac header) bodyhmac (Z.to_nat hmac_size) =? 0
        then Exits HmacMismatch
        else return_message header data sock'
    | _, key =>
        if negb (eqb flagged (is_configured key)) then Exits NotSymmetric
        else return_message header data sock'
    end.

(** [headerdata0] and [data0] are the contents of the two local arrays on
    entry. *)
Definition getMessage (config : Configuration) (headerdata0 data0 sock : list Z)
    (requiredMsgType : Z) : outcome (Message * list Z) :=
  let '(_, headerdata, sock') := read sock headerdata0 (Z.to_nat HEADER_SIZE) in
  header <- parseMessageHeader (Some headerdata) ;;
  receive_body config data0 sock' requiredMsgType header.

(** [read] applied to the body: the bytes one call takes from the stream. *)
Definition body_read (sock : list Z) : list Z := firstn 256 sock.

(** ** Well-formed buffers and single-bit corruption *)

Definition byte (b : Z) : Prop := 0 <= b < 256.

Definition bytes (h : list Z) : Prop := Forall byte h.

(** The buffer with bit [k] of byte [i] inverted. *)
Fixpoint flip_bit (h : list Z) (i : nat) (k : Z) : list Z :=
  match h, i with
  | [], _ => []
  | b :: rest, O => Z.lxor b (Z.shiftl 1 k) :: rest
  | b :: rest, S i' => b :: flip_bit rest i' k
  end.

(** The offsets whose bytes enter the checksum modulo 65536. *)
Definition checksummed_offsets : list nat := [6; 7; 8; 9; 10; 11; 14; 15]%nat.

(** The test behind [flip_byte]: the byte stays a byte and moves by the
    weight of the bit. *)
Definition flip_ok (b k : Z) : bool :=
  let b' := Z.lxor b (Z.shiftl 1 k) in
  (0 <=? b') && (b' <? 256)
  && ((b' - b =? Z.shiftl 1 k) || (b - b' =? Z.shiftl 1 k)).

(** ** Sample values *)

(** The configuration after [setConfig("cylc")], as [main] of [socket.c]
    sets it. *)
Definition cylc_config : Configuration :=
  {| hmac_key := Some [99; 121; 108; 99; 0]; keyLen := 4 |}.

(** The 38 bytes stored for an INVOKE of the body "hello" under the key
    "cylc", sequence number 0. *)
Definition hello_header : list Z :=
  [80; 89; 82; 79; 0; 44; 0; 4; 0; 8; 0; 0; 0; 0; 0; 5; 53; 38;
   244; 193; 37; 4; 133; 128; 148; 77; 201; 95; 172; 201; 185; 66;
   157; 27; 66; 20; 70; 5].

(** The 38 bytes stored for the same message with no key configured. *)
Definition plain_header : list Z :=
  [80; 89; 82; 79; 0; 44; 0; 4; 0; 0; 0; 0; 0; 0; 0; 5; 53; 30]
  ++ repeat 0 20.

(** The header of [hello_header] as the field decoder reads it. *)
Definition hello_decoded : MessageHeader :=
  {| header_type := 4; header_flags := 8; header_sequence := 0;
     header_datasize := 5;
     header_hmac := [244; 193; 37; 4; 133; 128; 148; 77; 201; 95; 172; 201;
                     185; 66; 157; 27; 66; 20; 70; 5] |}.

(** A RESULT header with no flag set and a zero digest. *)
Definition plain_result : MessageHeader :=
  {| header_type := 5; header_flags := 0; header_sequence := 0;
     header_datasize := 5; header_hmac := repeat 0 20 |}.

(** ** client.c: the request of retrive_grid_file *)

(** Bytes [src] stored at offset [pos] of the block [buf]; [None] when
    they do not fit. *)
Definition store (buf : list Z) (pos : nat) (src : list Z)
  : option (list Z) :=
  if (pos + length src <=? length buf)%nat
  then Some (firstn pos buf ++ src ++ skipn (pos + length src) buf)
  else None.

(** [strcpy(dest, src)]: the string at [src], terminator included, stored
    at the start of [dest]. *)
Definition strcpy (dest src : list Z) : option (list Z) :=
  match first_nul src with
  | Some n => store dest 0 (firstn (S n) src)
  | None => None
  end.

(** [strcat(dest, src)]: the string at [src], terminator included, stored
    over the terminator of the string at [dest]. *)
Definition strcat (dest src : list Z) : option (list Z) :=
  match first_nul dest, first_nul src with
  | Some p, Some n => store dest p (firstn (S n) src)
  | _, _ => None
  end.

Definition obind {A B : Type} (m : option A) (k : A -> option B) : option B :=
  match m with Some a => k a | None => None end.

(** Line 68: [getlen = 4 + strlen(filename) + 5], a sum formed in [size_t]
    and narrowed to the [int] variable. *)
Definition getlen_of (filename_len : Z) : Z :=
  int_of (size_t_of (size_t_of (4 + filename_len) + 5)).

(** Line 69: the size asked of [malloc], [sizeof(char)*(getlen+1)], with
    the [int] sum converted to [size_t]. *)
Definition malloc_size (getlen : Z) : Z :=
  size_t_of (1 * size_t_of (int_of (getlen + 1))).

(** Lines 68-73 of client.c: the length computed for the request, the
    block allocated for it, whose content on allocation is [block0], and
    the request assembled in it.  [None] stands for a block of another
    size than the one asked for, or a string function leaving its block or
    finding no terminator. *)
Definition assemble_get (filename block0 : list Z) : option (list Z) :=
  match first_nul filename with
  | None => None
  | Some n =>
      let getlen := getlen_of (Z.of_nat n) in
      if negb (Z.of_nat (length block0) =? malloc_size getlen) then None
      else
        obind (strcpy block0 (bytes_of_string "GET " ++ [NUL])) (fun get =>
        obind (strcat get filename) (fun get =>
        strcat get (bytes_of_string " " ++ [13; 10; NUL])))
  end.

(** [write(fd, buf, count)]: the [count] bytes taken from the block,
    [None] when they are more than the block holds. *)
Definition written (buf : list Z) (count : Z) : option (list Z) :=
  if count <=? Z.of_nat (length buf) then Some (firstn (Z.to_nat count) buf)
  else None.

(** Line 77: the bytes handed to [write], the [int] [getlen] being
    converted to the [size_t] count. *)
Definition get_request (filename block0 : list Z) : option (list Z) :=
  match first_nul filename with
  | None => None
  | Some n =>
      obind (assemble_get filename block0) (fun get =>
      written get (size_t_of (getlen_of (Z.of_nat n))))
  end.

Definition slash : Z := 47.

(** [strrchr(s, c)] for a character other than NUL: the offset of the last
    [c] in the string at [s], [None] for the null pointer. *)
Fixpoint strrchr (s : list Z) (c : Z) : option nat :=
  match s with
  | [] => None
  | x :: rest =>
      if x =? NUL then None
      else
        match strrchr rest c with
        | Some i => Some (S i)
        | None => if x =? c then Some O else None
        end
  end.

(** The string a pointer to [s] denotes: the bytes before the first NUL. *)
Definition string_at (s : list Z) : list Z :=
  match first_nul s with
  | Some n => firstn n s
  | None => s
  end.

(** Lines 79-88: the name of the file opened for the download. *)
Definition output_name (filename get : list Z) : list Z :=
  match strrchr filename slash with
  | None => string_at get
  | Some i => string_at (skipn (S i) filename)
  end.

(** * Properties *)

(** ** The keyed hash *)

(** The reference vector checked by [main] of [digest.c]. *)
Example digest_c_reference :
  hmac_sha1 (bytes_of_string "Jefe"%string) 4
            (bytes_of_string "what do ya want for nothing?"%string) 28
  = [0xef; 0xfc; 0xdf; 0x6a; 0xe5; 0xeb; 0x2f; 0xa2; 0xd2; 0x74;
     0x16; 0xd5; 0xf1; 0x84; 0xdf; 0x9c; 0x25; 0x9a; 0x7c; 0x79].
Proof. vm_compute. reflexivity. Qed.

Lemma hmac_sha1_length key keylen data inlen :
  length (hmac_sha1 key keylen data inlen) = 20%nat.
Proof.
  unfold hmac_sha1, HMAC.hmac, SHA1.sha1, SHA1.digest_of.
  destruct (fold_left _ _ _) as [[[[a b] c] d] e]. reflexivity.
Qed.

(** ** Machine arithmetic *)

Lemma uchar_range x : 0 <= uchar x < 256.
Proof. unfold uchar. apply Z.mod_pos_bound. lia. Qed.

Lemma shiftr8_div x : Z.shiftr x 8 = x / 256.
Proof. rewrite Z.shiftr_div_pow2 by lia. reflexivity. Qed.

Lemma shiftl8_mul x : Z.shiftl x 8 = 256 * x.
Proof. rewrite Z.shiftl_mul_pow2 by lia. change (2 ^ 8) with 256. lia. Qed.

Lemma land_ff x : Z.land x 0xff = x mod 256.
Proof. change 0xff with (Z.ones 8). rewrite Z.land_ones by lia. reflexivity. Qed.

Lemma land_ffff x : Z.land x 0xffff = x mod 65536.
Proof. change 0xffff with (Z.ones 16). rewrite Z.land_ones by lia. reflexivity. Qed.

Lemma int_of_wrap x : exists k, int_of x = x + 2 ^ 32 * k.
Proof.
  exists (- ((x + 2 ^ 31) / 2 ^ 32)). unfold int_of.
  pose proof (Z.div_mod (x + 2 ^ 31) (2 ^ 32)). lia.
Qed.

Lemma size_t_of_wrap x : exists k, size_t_of x = x + 2 ^ 64 * k.
Proof.
  exists (- (x / 2 ^ 64)). unfold size_t_of.
  pose proof (Z.div_mod x (2 ^ 64)). lia.
Qed.

Lemma int_of_small x : - 2 ^ 31 <= x < 2 ^ 31 -> int_of x = x.
Proof. intros H. unfold int_of. rewrite Z.mod_small; lia. Qed.

(** A multiple of 256 and a byte share no bit, so [|] adds them. *)
Lemma lor_shl8 m b : 0 <= b < 256 -> Z.lor (256 * m) b = 256 * m + b.
Proof.
  intros Hb.
  assert (Hland : Z.land (256 * m) b = 0).
  { apply Z.bits_inj'. intros i Hi. rewrite Z.land_spec, Z.bits_0.
    destruct (Z.ltb_spec i 8).
    - replace (256 * m) with (m * 2 ^ 8) by (change (2 ^ 8) with 256; lia).
      rewrite Z.mul_pow2_bits_low by lia. reflexivity.
    - rewrite (Z.bits_above_log2 b i), andb_false_r; try lia.
      destruct (Z.eq_dec b 0) as [->|]; [simpl; lia|].
      apply Z.log2_lt_pow2; try lia.
      apply Z.lt_le_trans with (2 ^ 8); [change (2 ^ 8) with 256; lia|].
      apply Z.pow_le_mono_r; lia. }
  rewrite <- Z.lxor_lor by exact Hland.
  symmetry. apply Z.add_nocarry_lxor. exact Hland.
Qed.

Lemma shl8_or_wrap x b :
  exists k, shl8_or x b = 256 * x + b mod 256 + 2 ^ 32 * k.
Proof.
  unfold shl8_or. rewrite shiftl8_mul, land_ff.
  destruct (int_of_wrap (256 * x)) as [k Hk]. exists k. rewrite Hk.
  replace (256 * x + 2 ^ 32 * k) with (256 * (x + 2 ^ 24 * k)) by lia.
  rewrite lor_shl8 by (apply Z.mod_pos_bound; lia). lia.
Qed.

Lemma shl8_or_small x b :
  0 <= x < 2 ^ 23 -> 0 <= b < 256 -> shl8_or x b = 256 * x + b.
Proof.
  intros Hx Hb. unfold shl8_or.
  rewrite shiftl8_mul, land_ff, int_of_small by lia.
  rewrite Z.mod_small by lia. apply lor_shl8. exact Hb.
Qed.

(** The two bytes the encoder stores for a 16-bit field. *)
Lemma be16_bytes x :
  256 * uchar (Z.shiftr x 8) + uchar (Z.land x 0xff) = x mod 65536.
Proof.
  unfold uchar. rewrite shiftr8_div, land_ff.
  Z.div_mod_to_equations. lia.
Qed.

Lemma at_byte h i : bytes h -> byte (at_ h i).
Proof.
  unfold at_. intros H. revert i.
  induction H as [|b h Hb _ IH]; intros [|i]; simpl; auto; unfold byte; lia.
Qed.

Lemma bytes_app a b : bytes a -> bytes b -> bytes (a ++ b).
Proof. intros Ha Hb. apply Forall_app. split; assumption. Qed.

Lemma bytes_firstn n h : bytes h -> bytes (firstn n h).
Proof.
  intros H. unfold bytes in *. rewrite <- (firstn_skipn n h) in H.
  apply Forall_app in H. tauto.
Qed.

Lemma bytes_repeat b n : byte b -> bytes (repeat b n).
Proof.
  intros Hb. apply Forall_forall. intros x Hx.
  apply repeat_spec in Hx. subst. exact Hb.
Qed.

Lemma sha1_bytes m : bytes (SHA1.sha1 m).
Proof.
  unfold SHA1.sha1, SHA1.digest_of.
  destruct (fold_left _ _ _) as [[[[a b] c] d] e].
  unfold SHA1.bytes_of_w32. simpl.
  repeat constructor; apply Z.mod_pos_bound; lia.
Qed.

Lemma hmac_sha1_bytes key keylen data inlen :
  bytes (hmac_sha1 key keylen data inlen).
Proof. unfold hmac_sha1, HMAC.hmac. apply sha1_bytes. Qed.

(** ** The decoder's fields as numbers *)

Section Decoded.

Variable h : list Z.
Hypothesis Hbytes : bytes h.

Let b (i : nat) : 0 <= at_ h i < 256 := at_byte h i Hbytes.

Lemma version_of_value : version_of h = 256 * at_ h 4 + at_ h 5.
Proof. unfold version_of. rewrite shiftl8_mul. apply lor_shl8, b. Qed.

Lemma type_of_value : type_of h = 256 * at_ h 6 + at_ h 7.
Proof.
  unfold type_of. pose proof (b 6). pose proof (b 7).
  rewrite land_ff, Z.mod_small by lia. apply shl8_or_small; lia.
Qed.

Lemma flags_of_value : flags_of h = 256 * at_ h 8 + at_ h 9.
Proof.
  unfold flags_of. pose proof (b 8). pose proof (b 9).
  rewrite land_ff, Z.mod_small by lia. apply shl8_or_small; lia.
Qed.

Lemma sequence_of_value : sequence_of h = 256 * at_ h 10 + at_ h 11.
Proof.
  unfold sequence_of. pose proof (b 10). pose proof (b 11).
  rewrite land_ff, Z.mod_small by lia. apply shl8_or_small; lia.
Qed.

Lemma embedded_checksum_value :
  embedded_checksum h = 256 * at_ h 16 + at_ h 17.
Proof.
  unfold embedded_checksum. pose proof (b 16). pose proof (b 17).
  rewrite land_ff, Z.mod_small by lia. apply shl8_or_small; lia.
Qed.

(** The last shift of [datasize] can leave the range of [int]. *)
Lemma datasize_of_wrap :
  exists k, datasize_of h
            = 2 ^ 24 * at_ h 12 + 2 ^ 16 * at_ h 13 + 256 * at_ h 14
              + at_ h 15 + 2 ^ 32 * k.
Proof.
  unfold datasize_of.
  pose proof (b 12). pose proof (b 13). pose proof (b 14). pose proof (b 15).
  rewrite land_ff, Z.mod_small by lia.
  rewrite (shl8_or_small (at_ h 12)) by lia.
  rewrite (shl8_or_small (256 * at_ h 12 + at_ h 13)) by lia.
  destruct (shl8_or_wrap (256 * (256 * at_ h 12 + at_ h 13) + at_ h 14)
                         (at_ h 15)) as [k Hk].
  exists k. rewrite Hk, Z.mod_small by lia. lia.
Qed.

Lemma datasize_of_small :
  at_ h 12 < 128 ->
  datasize_of h
  = 2 ^ 24 * at_ h 12 + 2 ^ 16 * at_ h 13 + 256 * at_ h 14 + at_ h 15.
Proof.
  intros Hsmall. unfold datasize_of.
  pose proof (b 12). pose proof (b 13). pose proof (b 14). pose proof (b 15).
  rewrite land_ff, Z.mod_small by lia.
  rewrite (shl8_or_small (at_ h 12)) by lia.
  rewrite (shl8_or_small (256 * at_ h 12 + at_ h 13)) by lia.
  rewrite shl8_or_small by lia. lia.
Qed.

(** Line 160 in arithmetic: only the low 16 bits of the body length
    reach the sum. *)
Lemma currentchecksum_of_value :
  currentchecksum_of h
  = (256 * at_ h 6 + at_ h 7 + (256 * at_ h 4 + at_ h 5)
     + (256 * at_ h 14 + at_ h 15) + (256 * at_ h 8 + at_ h 9)
     + (256 * at_ h 10 + at_ h 11) + PYRO_MAGIC) mod 65536.
Proof.
  unfold currentchecksum_of.
  rewrite land_ffff, type_of_value, version_of_value, flags_of_value,
    sequence_of_value.
  destruct datasize_of_wrap as [k ->].
  match goal with |- int_of ?s mod _ = _ =>
    destruct (int_of_wrap s) as [k' ->] end.
  pose proof (b 12). pose proof (b 13).
  Z.div_mod_to_equations. lia.
Qed.

End Decoded.

(** ** The encoder *)

Lemma headerchecksum_of_mod msgtype dataLen flags sequenceNr :
  headerchecksum_of msgtype dataLen flags sequenceNr mod 65536
  = (msgtype + PROTOCOL_VERSION + dataLen + flags + sequenceNr + PYRO_MAGIC)
    mod 65536.
Proof.
  unfold headerchecksum_of.
  repeat match goal with
  | |- context [int_of ?x] =>
      let k := fresh "k" in destruct (int_of_wrap x) as [k ->]
  | |- context [size_t_of ?x] =>
      let k := fresh "k" in destruct (size_t_of_wrap x) as [k ->]
  end.
  Z.div_mod_to_equations. lia.
Qed.

Lemma sign_body_flags config d dataLen flags :
  fst (sign_body config d dataLen flags)
  = if is_configured (hmac_key config) then Z.lor flags _FLAGS_HMAC else flags.
Proof. unfold sign_body. destruct (hmac_key config); reflexivity. Qed.

Lemma sign_body_digest config d dataLen flags :
  snd (sign_body config d dataLen flags)
  = match hmac_key config with
    | Some key => hmac_sha1 key (keyLen config) d dataLen
    | None => repeat 0 20
    end.
Proof. unfold sign_body. destruct (hmac_key config); reflexivity. Qed.

Lemma sign_body_length config d dataLen flags :
  length (snd (sign_body config d dataLen flags)) = 20%nat.
Proof.
  rewrite sign_body_digest. destruct (hmac_key config).
  - apply hmac_sha1_length.
  - reflexivity.
Qed.

Lemma sign_body_bytes config d dataLen flags :
  bytes (snd (sign_body config d dataLen flags)).
Proof.
  rewrite sign_body_digest. destruct (hmac_key config).
  - apply hmac_sha1_bytes.
  - apply bytes_repeat. unfold byte. lia.
Qed.

Lemma firstn_exact {A} (l : list A) n : length l = n -> firstn n l = l.
Proof. intros <-. apply firstn_all. Qed.

Lemma header_bytes_bytes msgtype dataLen flags sequenceNr cs hm :
  bytes hm -> bytes (header_bytes msgtype dataLen flags sequenceNr cs hm).
Proof.
  intros Hhm. unfold header_bytes. apply bytes_app.
  - repeat (apply Forall_cons;
      [first [apply uchar_range | unfold byte; cbv; split; congruence]|]).
    apply Forall_nil.
  - apply bytes_firstn, Hhm.
Qed.

Lemma header_bytes_length msgtype dataLen flags sequenceNr cs hm :
  length hm = 20%nat ->
  length (header_bytes msgtype dataLen flags sequenceNr cs hm) = 38%nat.
Proof.
  intros Hhm. unfold header_bytes. rewrite length_app, firstn_exact by exact Hhm.
  rewrite Hhm. reflexivity.
Qed.

(** What a call that returns has stored, and when a call returns. *)
Lemma createMsgHeader_returns config msgtype d n flags sequenceNr :
  first_nul d = Some n -> sequenceNr <= 0xffff ->
  createMsgHeader config msgtype (Some d) flags sequenceNr
  = Returns
      (let dataLen := Z.of_nat n in
       let flags' := fst (sign_body config d dataLen flags) in
       header_bytes msgtype dataLen flags' sequenceNr
         (headerchecksum_of msgtype dataLen flags' sequenceNr)
         (snd (sign_body config d dataLen flags))).
Proof.
  intros Hn Hs. unfold createMsgHeader, strlen. rewrite Hn. simpl.
  unfold build_header. destruct (sign_body _ _ _ _) as [f hm]. simpl.
  destruct (Z.gtb_spec sequenceNr 65535); [lia | reflexivity].
Qed.

Lemma createMsgHeader_inv config msgtype data flags sequenceNr header :
  createMsgHeader config msgtype data flags sequenceNr = Returns header ->
  exists d n,
    data = Some d /\ first_nul d = Some n /\ sequenceNr <= 0xffff /\
    header
    = (let dataLen := Z.of_nat n in
       let flags' := fst (sign_body config d dataLen flags) in
       header_bytes msgtype dataLen flags' sequenceNr
         (headerchecksum_of msgtype dataLen flags' sequenceNr)
         (snd (sign_body config d dataLen flags))).
Proof.
  intros H. destruct data as [d|]; [|discriminate].
  unfold createMsgHeader, strlen in H.
  destruct (first_nul d) as [n|] eqn:Hn; [|discriminate].
  destruct (Z.gtb_spec sequenceNr 0xffff) as [Hgt|Hle].
  - exfalso. simpl in H. unfold build_header in H.
    destruct (sign_body _ _ _ _). 
    destruct (Z.gtb_spec sequenceNr 65535); [discriminate | lia].
  - exists d, n. repeat split; auto.
    pose proof (createMsgHeader_returns config msgtype d n flags sequenceNr
                  Hn Hle) as E.
    unfold createMsgHeader, strlen in E. rewrite Hn in E.
    rewrite E in H. injection H as <-. reflexivity.
Qed.

Ltac header_at := unfold at_, header_bytes; cbn [nth app].

Lemma be16_bytes_masked x :
  256 * uchar (Z.land (Z.shiftr x 8) 0xff) + uchar (Z.land x 0xff)
  = x mod 65536.
Proof.
  unfold uchar. rewrite shiftr8_div, !land_ff.
  Z.div_mod_to_equations. lia.
Qed.

Lemma header_bytes_magic msgtype dataLen flags sequenceNr cs hm :
  bad_magic_or_version (header_bytes msgtype dataLen flags sequenceNr cs hm)
  = false.
Proof. reflexivity. Qed.

Lemma header_bytes_hmac msgtype dataLen flags sequenceNr cs hm :
  length hm = 20%nat ->
  firstn (Z.to_nat hmac_size)
         (skipn 18 (header_bytes msgtype dataLen flags sequenceNr cs hm)) = hm.
Proof.
  intros Hhm. unfold header_bytes. cbn [skipn app].
  change (Z.to_nat hmac_size) with 20%nat.
  rewrite !firstn_exact; auto. rewrite firstn_exact; auto.
Qed.

Section Encoded.

Variables (msgtype dataLen flags sequenceNr cs : Z) (hm : list Z).
Hypothesis Hhm : bytes hm.

Local Abbreviation hb := (header_bytes msgtype dataLen flags sequenceNr cs hm).
Let Hhb : bytes hb := header_bytes_bytes _ _ _ _ _ _ Hhm.

Lemma header_bytes_type : type_of hb = msgtype mod 65536.
Proof. rewrite type_of_value by exact Hhb. header_at.
  apply be16_bytes. Qed.

Lemma header_bytes_flags : flags_of hb = flags mod 65536.
Proof. rewrite flags_of_value by exact Hhb. header_at.
  apply be16_bytes. Qed.

Lemma header_bytes_sequence : sequence_of hb = sequenceNr mod 65536.
Proof. rewrite sequence_of_value by exact Hhb. header_at.
  apply be16_bytes. Qed.

Lemma header_bytes_embedded : embedded_checksum hb = cs mod 65536.
Proof. rewrite embedded_checksum_value by exact Hhb. header_at.
  apply be16_bytes. Qed.

Lemma header_bytes_datasize :
  0 <= dataLen < 2 ^ 31 -> datasize_of hb = dataLen.
Proof.
  intros Hl. rewrite datasize_of_small by
    (try exact Hhb; header_at; unfold uchar;
     rewrite land_ff, Z.shiftr_div_pow2 by lia;
     Z.div_mod_to_equations; lia).
  header_at. unfold uchar.
  rewrite !land_ff, !Z.shiftr_div_pow2 by lia.
  Z.div_mod_to_equations. lia.
Qed.

Lemma header_bytes_current :
  currentchecksum_of hb
  = (msgtype + PROTOCOL_VERSION + dataLen + flags + sequenceNr + PYRO_MAGIC)
    mod 65536.
Proof.
  rewrite currentchecksum_of_value by exact Hhb. header_at.
  rewrite !be16_bytes, be16_bytes_masked.
  Z.div_mod_to_equations. lia.
Qed.

(** The decoder's checksum test lets through exactly the headers whose
    checksum argument was right. *)
Lemma decode_fields_header_bytes :
  length hm = 20%nat ->
  cs mod 65536
  = (msgtype + PROTOCOL_VERSION + dataLen + flags + sequenceNr + PYRO_MAGIC)
    mod 65536 ->
  decode_fields hb
  = Returns {| header_type := msgtype mod 65536;
               header_flags := flags mod 65536;
               header_sequence := sequenceNr mod 65536;
               header_datasize := datasize_of hb;
               header_hmac := hm |}.
Proof.
  intros Hlen Hcs. unfold decode_fields.
  rewrite header_bytes_magic.
  rewrite header_bytes_current, header_bytes_embedded, Hcs, Z.eqb_refl.
  cbn [negb]. rewrite header_bytes_type, header_bytes_flags,
    header_bytes_sequence, header_bytes_hmac by exact Hlen.
  reflexivity.
Qed.

End Encoded.

(** Every header the encoder returns is one the field decoder returns from. *)
Lemma decode_fields_created config msgtype d n flags sequenceNr header :
  createMsgHeader config msgtype (Some d) flags sequenceNr = Returns header ->
  first_nul d = Some n ->
  decode_fields header
  = Returns {| header_type := msgtype mod 65536;
               header_flags :=
                 (if is_configured (hmac_key config)
                  then Z.lor flags _FLAGS_HMAC else flags) mod 65536;
               header_sequence := sequenceNr mod 65536;
               header_datasize := datasize_of header;
               header_hmac :=
                 match hmac_key config with
                 | Some key => hmac_sha1 key (keyLen config) d (Z.of_nat n)
                 | None => repeat 0 20
                 end |}.
Proof.
  intros H Hn.
  destruct (createMsgHeader_inv _ _ _ _ _ _ H) as (d' & n' & Hd & Hn' & Hs & ->).
  injection Hd as <-. rewrite Hn in Hn'. injection Hn' as <-.
  cbv zeta. rewrite <- (sign_body_flags config d (Z.of_nat n) flags),
    <- (sign_body_digest config d (Z.of_nat n) flags).
  apply decode_fields_header_bytes.
  - apply sign_body_bytes.
  - apply sign_body_length.
  - apply headerchecksum_of_mod.
Qed.

(** ** The size test of the decoder *)

Lemma first_nul_before h n i :
  first_nul h = Some n -> (i < n)%nat -> at_ h i <> NUL.
Proof.
  revert n i. induction h as [|c h IH]; intros n i Hn Hi; [discriminate|].
  simpl in Hn. destruct (Z.eqb_spec c NUL) as [->|Hc].
  - injection Hn as <-. lia.
  - destruct (first_nul h) as [m|]; [|discriminate]. injection Hn as <-.
    destruct i as [|i]; [exact Hc|]. apply (IH m); [reflexivity | lia].
Qed.

Lemma version_high_byte h : version_of h = PROTOCOL_VERSION -> at_ h 4 = 0.
Proof.
  unfold version_of. intros H.
  apply (f_equal (fun x => Z.shiftr x 8)) in H.
  rewrite Z.shiftr_lor, Z.shiftr_shiftl_l in H by lia.
  change (Z.shiftr PROTOCOL_VERSION 8) with 0 in H.
  apply Z.lor_eq_0_iff in H. destruct H as [H _].
  rewrite Z.shiftl_0_r in H. exact H.
Qed.

Lemma full_length_string_bad_version h :
  first_nul h = Some 38%nat -> decode_fields h = Exits BadMagicOrVersion.
Proof.
  intros Hn. unfold decode_fields.
  assert (Hv : bad_magic_or_version h = true).
  { unfold bad_magic_or_version.
    destruct (Z.eqb_spec (version_of h) PROTOCOL_VERSION) as [E|_].
    - apply version_high_byte in E.
      exfalso. apply (first_nul_before h 38 4 Hn); [lia | exact E].
    - cbn [negb]. apply orb_true_r. }
  rewrite Hv. reflexivity.
Qed.

Example setConfig_cylc :
  setConfig (Some (bytes_of_string "cylc" ++ [NUL])) = Returns cylc_config.
Proof. reflexivity. Qed.

(** [parseMessageHeader] by the position of the first NUL byte: the size
    test passes exactly the buffers whose first NUL byte is at index 38, and
    any such buffer is then refused for its version, since byte 4 is not
    zero. *)
Lemma parseMessageHeader_by_first_nul (h : list Z) :
  parseMessageHeader (Some h)
  = match first_nul h with
    | None => Undefined StrlenUnterminated
    | Some n =>
        if (n =? 38)%nat then Exits BadMagicOrVersion else Exits SizeMismatch
    end.
Proof.
  unfold parseMessageHeader, strlen.
  destruct (first_nul h) as [n|] eqn:Hn; [|reflexivity].
  cbn [bind]. destruct (Nat.eqb_spec n 38) as [->|Hne].
  - change (Z.of_nat 38 =? HEADER_SIZE) with true. cbn [negb].
    apply full_length_string_bad_version, Hn.
  - destruct (Z.eqb_spec (Z.of_nat n) HEADER_SIZE) as [E|_]; [|reflexivity].
    unfold HEADER_SIZE in E. lia.
Qed.

Lemma first_nul_in_prefix h k :
  In NUL (firstn k h) -> exists n, first_nul h = Some n /\ (n < k)%nat.
Proof.
  revert k. induction h as [|c h IH]; intros k Hin.
  - rewrite firstn_nil in Hin. destruct Hin.
  - destruct k as [|k]; [destruct Hin|]. simpl in Hin. simpl.
    destruct (Z.eqb_spec c NUL) as [_|Hc].
    + exists O. split; [reflexivity | lia].
    + destruct Hin as [Hin|Hin]; [congruence|].
      destruct (IH k Hin) as (n & -> & Hlt). exists (S n). split; [reflexivity | lia].
Qed.

Lemma first_nul_none h : ~ In NUL h -> first_nul h = None.
Proof.
  induction h as [|c h IH]; intros Hnot; [reflexivity|]. simpl.
  destruct (Z.eqb_spec c NUL) as [->|_].
  - exfalso. apply Hnot. left. reflexivity.
  - rewrite IH; [reflexivity|]. intros Hin. apply Hnot. right. exact Hin.
Qed.

(** C4: the size test of [parseMessageHeader] does not look at the size of
    the buffer but at the position of its first NUL byte.  A buffer with a
    NUL byte among its first 38 bytes is refused as a size mismatch, also
    when it holds 38 bytes or more; a buffer with no NUL byte, of 37 bytes
    or any other length, is read past its end; and no buffer makes the
    function return. *)
Theorem size_test_is_strlen (h : list Z) :
  (In NUL (firstn 38 h) -> parseMessageHeader (Some h) = Exits SizeMismatch)
  /\ (~ In NUL h -> parseMessageHeader (Some h) = Undefined StrlenUnterminated)
  /\ (forall header, parseMessageHeader (Some h) <> Returns header).
Proof.
  rewrite parseMessageHeader_by_first_nul. repeat split.
  - intros Hin. destruct (first_nul_in_prefix h 38 Hin) as (n & -> & Hlt).
    destruct (Nat.eqb_spec n 38); [lia | reflexivity].
  - intros Hnot. rewrite (first_nul_none h Hnot). reflexivity.
  - intros header. destruct (first_nul h) as [n|]; [|discriminate].
    destruct (n =? 38)%nat; discriminate.
Qed.

Example hello_header_created :
  createMsgHeader cylc_config _MSG_INVOKE
    (Some (bytes_of_string "hello" ++ [NUL])) 0 0
  = Returns hello_header.
Proof. vm_compute. reflexivity. Qed.

Lemma size_test_is_strlen_witness :
  parseMessageHeader (Some hello_header) = Exits SizeMismatch.
Proof.
  apply (size_test_is_strlen hello_header). simpl. tauto.
Defined.

(** Byte 4 of a stored header is the high byte of the version, which is
    NUL. *)
Lemma header_bytes_size_mismatch msgtype dataLen flags sequenceNr cs hm rest :
  parseMessageHeader
    (Some (header_bytes msgtype dataLen flags sequenceNr cs hm ++ rest))
  = Exits SizeMismatch.
Proof. rewrite parseMessageHeader_by_first_nul. reflexivity. Qed.

(** C2: a header stored by [createMsgHeader] never gets through
    [parseMessageHeader]: byte 4, the high byte of version 44, is NUL, so
    [strlen] yields 4 and the size test exits, whatever follows the header
    in memory. *)
Theorem created_header_fails_size_test
    (config : Configuration) (msgtype : Z) (data : option (list Z))
    (flags sequenceNr : Z) (header rest : list Z) :
  createMsgHeader config msgtype data flags sequenceNr = Returns header ->
  parseMessageHeader (Some (header ++ rest)) = Exits SizeMismatch.
Proof.
  intros H.
  destruct (createMsgHeader_inv _ _ _ _ _ _ H) as (d & n & _ & _ & _ & ->).
  apply header_bytes_size_mismatch.
Qed.

Example plain_header_created :
  createMsgHeader config_unset _MSG_INVOKE
    (Some (bytes_of_string "hello" ++ [NUL])) 0 0
  = Returns plain_header.
Proof. vm_compute. reflexivity. Qed.

Lemma created_header_fails_size_test_witness :
  parseMessageHeader (Some (plain_header ++ [])) = Exits SizeMismatch.
Proof.
  apply (created_header_fails_size_test config_unset _MSG_INVOKE
           (Some (bytes_of_string "hello" ++ [NUL])) 0 0).
  exact plain_header_created.
Defined.

(** The statements after the size test do read back what was stored: for
    a message type, flags and sequence number of 16 bits, a body shorter
    than 2^31 bytes and no secret configured, the fields decoded are the
    arguments of the encoder. *)
Lemma decode_fields_round_trip config msgtype d n flags sequenceNr header :
  0 <= msgtype < 65536 -> 0 <= flags < 65536 -> 0 <= sequenceNr < 65536 ->
  hmac_key config = None ->
  first_nul d = Some n -> Z.of_nat n < 2 ^ 31 ->
  createMsgHeader config msgtype (Some d) flags sequenceNr = Returns header ->
  decode_fields header
  = Returns {| header_type := msgtype;
               header_flags := flags;
               header_sequence := sequenceNr;
               header_datasize := Z.of_nat n;
               header_hmac := repeat 0 20 |}.
Proof.
  intros Ht Hf Hs Hk Hn Hl H.
  rewrite (decode_fields_created _ _ _ _ _ _ _ H Hn).
  destruct (createMsgHeader_inv _ _ _ _ _ _ H) as (d' & n' & Hd & Hn' & _ & ->).
  injection Hd as <-. rewrite Hn in Hn'. injection Hn' as <-.
  cbv zeta. rewrite header_bytes_datasize by (try apply sign_body_bytes; lia).
  rewrite Hk. cbn [is_configured]. rewrite !Z.mod_small by lia. reflexivity.
Qed.

(** The checksum as written and as tested by the statements after the
    size test.  The two bytes at offset 16 of a stored header are, most
    significant first, the sum of message type, protocol version, body
    length, flags as stored, sequence number and PYRO_MAGIC modulo 65536.
    On a buffer whose tag and version are right the field decoder compares
    the same sum, taken over the fields it has read, with those two bytes,
    and returns the header exactly when they agree. *)
Lemma checksum_test_of_field_decoding
    (config : Configuration) (msgtype : Z) (d : list Z) (n : nat)
    (flags sequenceNr : Z) (header h : list Z) :
  createMsgHeader config msgtype (Some d) flags sequenceNr = Returns header ->
  first_nul d = Some n ->
  bytes h -> bad_magic_or_version h = false ->
  256 * at_ header 16 + at_ header 17
  = (msgtype + PROTOCOL_VERSION + Z.of_nat n
     + (if is_configured (hmac_key config)
        then Z.lor flags _FLAGS_HMAC else flags)
     + sequenceNr + PYRO_MAGIC) mod 65536
  /\ decode_fields h
     = if (type_of h + version_of h + datasize_of h + flags_of h
           + sequence_of h + PYRO_MAGIC) mod 65536
          =? 256 * at_ h 16 + at_ h 17
       then Returns {| header_type := type_of h;
                       header_flags := flags_of h;
                       header_sequence := sequence_of h;
                       header_datasize := datasize_of h;
                       header_hmac := firstn 20 (skipn 18 h) |}
       else Exits ChecksumMismatch.
Proof.
  intros H Hn Hh Hmagic. split.
  - destruct (createMsgHeader_inv _ _ _ _ _ _ H) as (d' & n' & Hd & Hn' & _ & ->).
    injection Hd as <-. rewrite Hn in Hn'. injection Hn' as <-.
    cbv zeta. rewrite sign_body_flags. header_at.
    rewrite be16_bytes. apply headerchecksum_of_mod.
  - unfold decode_fields. rewrite Hmagic.
    rewrite <- (embedded_checksum_value h Hh).
    replace ((type_of h + version_of h + datasize_of h + flags_of h
              + sequence_of h + PYRO_MAGIC) mod 65536)
      with (currentchecksum_of h).
    + destruct (currentchecksum_of h =? embedded_checksum h); reflexivity.
    + unfold currentchecksum_of. rewrite land_ffff.
      match goal with |- int_of ?s mod _ = _ =>
        destruct (int_of_wrap s) as [k ->] end.
      Z.div_mod_to_equations. lia.
Qed.

Lemma hello_header_bytes : bytes hello_header.
Proof.
  unfold hello_header.
  repeat (apply Forall_cons; [unfold byte; lia|]). apply Forall_nil.
Qed.

(** C10: [strlen(data)] at line 35 runs before the test [data == NULL] of
    line 37.  With [data == NULL] the call is already undefined at
    [strlen], so the guarded store is not what goes wrong; with any other
    [data] the guard does nothing, and the call is [strlen] followed by
    lines 40-79, which fix body length, flags and digest. *)
Theorem null_guard_is_dead
    (config : Configuration) (msgtype flags sequenceNr : Z) :
  createMsgHeader config msgtype None flags sequenceNr = Undefined StrlenNull
  /\ forall d : list Z,
       null_guard (Some d) = Returns d
       /\ createMsgHeader config msgtype (Some d) flags sequenceNr
          = (dataLen <- strlen (Some d) ;;
             build_header config msgtype d dataLen flags sequenceNr)
       /\ forall n : nat,
            first_nul d = Some n ->
            createMsgHeader config msgtype (Some d) flags sequenceNr
            = build_header config msgtype d (Z.of_nat n) flags sequenceNr.
Proof.
  split; [reflexivity|]. intros d. repeat split.
  intros n Hn. unfold createMsgHeader, strlen. rewrite Hn. reflexivity.
Qed.

Lemma null_guard_is_dead_witness :
  createMsgHeader cylc_config _MSG_INVOKE
    (Some (bytes_of_string "hello" ++ [NUL])) 0 0
  = build_header cylc_config _MSG_INVOKE
      (bytes_of_string "hello" ++ [NUL]) 5 0 0.
Proof.
  apply (proj2 (proj2 (proj2 (null_guard_is_dead cylc_config _MSG_INVOKE 0 0)
                         (bytes_of_string "hello" ++ [NUL]))) 5%nat).
  reflexivity.
Defined.

Lemma land_hmac_flag x :
  Z.land (Z.lor x _FLAGS_HMAC mod 65536) _FLAGS_HMAC = _FLAGS_HMAC.
Proof.
  change 65536 with (2 ^ 16). change _FLAGS_HMAC with (2 ^ 3).
  apply Z.bits_inj'. intros i Hi.
  rewrite Z.land_spec, Z.pow2_bits_eqb by lia.
  destruct (Z.eqb_spec 3 i) as [<-|_].
  - rewrite Z.mod_pow2_bits_low, Z.lor_spec, Z.pow2_bits_eqb by lia.
    rewrite orb_true_r. reflexivity.
  - apply andb_false_r.
Qed.

(** C5, as the code has it: a call with a body and a sequence number of at
    most 65535 stores a header.  With a secret configured the HMAC bit of
    the stored flags is set and the digest field is the keyed hash of the
    body; with none the digest field is twenty zero bytes and the flags are
    stored as the caller gave them, HMAC bit included. *)
Theorem createMsgHeader_flag_and_digest
    (config : Configuration) (msgtype : Z) (d : list Z) (n : nat)
    (flags sequenceNr : Z) :
  first_nul d = Some n -> sequenceNr <= 0xffff ->
  exists header,
    createMsgHeader config msgtype (Some d) flags sequenceNr = Returns header
    /\ match hmac_key config with
       | Some key =>
           Z.land (flags_of header) _FLAGS_HMAC = _FLAGS_HMAC
           /\ skipn 18 header = hmac_sha1 key (keyLen config) d (Z.of_nat n)
       | None =>
           flags_of header = flags mod 65536
           /\ skipn 18 header = repeat 0 20
       end.
Proof.
  intros Hn Hs. eexists. split.
  - apply createMsgHeader_returns; eassumption.
  - cbv zeta.
    rewrite header_bytes_flags by apply sign_body_bytes.
    rewrite sign_body_flags.
    assert (Hskip : forall a b c e f hm,
      skipn 18 (header_bytes a b c e f hm) = firstn 20 hm) by reflexivity.
    rewrite Hskip, firstn_exact by apply sign_body_length.
    rewrite sign_body_digest.
    destruct (hmac_key config) as [key|]; cbn [is_configured]; split;
      auto using land_hmac_flag.
Qed.

Lemma createMsgHeader_flag_and_digest_witness :
  exists header,
    createMsgHeader cylc_config _MSG_INVOKE
      (Some (bytes_of_string "hello" ++ [NUL])) 0 0 = Returns header
    /\ Z.land (flags_of header) _FLAGS_HMAC = _FLAGS_HMAC
    /\ skipn 18 header
       = hmac_sha1 [99; 121; 108; 99; 0] 4 (bytes_of_string "hello" ++ [NUL]) 5.
Proof.
  apply (createMsgHeader_flag_and_digest cylc_config _MSG_INVOKE
           (bytes_of_string "hello" ++ [NUL]) 5 0 0).
  - reflexivity.
  - lia.
Defined.

(** C5 as stated fails: with no secret configured and the caller passing
    _FLAGS_HMAC, the stored header has the HMAC bit set. *)
Lemma flag_not_cleared_without_secret :
  exists header,
    hmac_key config_unset = None
    /\ createMsgHeader config_unset _MSG_INVOKE (Some [NUL]) _FLAGS_HMAC 0
       = Returns header
    /\ Z.land (flags_of header) _FLAGS_HMAC <> 0.
Proof.
  eexists. split; [reflexivity|]. split; [reflexivity|].
  vm_compute. discriminate.
Qed.

(** ** Single-bit corruption *)

Lemma at_flip_same h i k :
  (i < length h)%nat -> at_ (flip_bit h i k) i = Z.lxor (at_ h i) (Z.shiftl 1 k).
Proof.
  unfold at_. revert i. induction h as [|b h IH]; intros [|i] Hi; simpl in *;
    try lia; auto. apply IH. lia.
Qed.

Lemma at_flip_other h i k j : i <> j -> at_ (flip_bit h i k) j = at_ h j.
Proof.
  unfold at_. revert i j. induction h as [|b h IH]; intros [|i] [|j] Hij;
    simpl; auto; try congruence. 
Qed.

(** Inverting one of the eight bits of a byte moves it by that bit's
    weight and leaves it a byte; checked over all 2048 cases. *)
Lemma flip_byte b k :
  byte b -> 0 <= k < 8 ->
  exists delta, Z.lxor b (Z.shiftl 1 k) = b + delta
                /\ byte (b + delta) /\ 1 <= Z.abs delta <= 128.
Proof.
  intros Hb Hk.
  assert (Hall : forallb (fun b => forallb (fun k =>
            flip_ok (Z.of_nat b) (Z.of_nat k)) (seq 0 8)) (seq 0 256) = true)
    by (vm_compute; reflexivity).
  rewrite forallb_forall in Hall.
  specialize (Hall (Z.to_nat b)). rewrite forallb_forall in Hall.
  assert (Hok : flip_ok b k = true).
  { rewrite <- (Z2Nat.id b), <- (Z2Nat.id k) by (unfold byte in Hb; lia).
    apply Hall; apply in_seq; unfold byte in Hb; lia. }
  unfold flip_ok in Hok. cbv zeta in Hok.
  assert (Hw : 1 <= Z.shiftl 1 k <= 128).
  { rewrite Z.shiftl_mul_pow2 by lia. rewrite Z.mul_1_l.
    split.
    - pose proof (Z.pow_pos_nonneg 2 k). lia.
    - change 128 with (2 ^ 7). apply Z.pow_le_mono_r; lia. }
  exists (Z.lxor b (Z.shiftl 1 k) - b).
  apply andb_prop in Hok. destruct Hok as [Hr Hd].
  apply andb_prop in Hr. destruct Hr as [H0 H1].
  apply Z.leb_le in H0. apply Z.ltb_lt in H1.
  apply orb_prop in Hd.
  repeat split; try lia; unfold byte;
    destruct Hd as [Hd|Hd]; apply Z.eqb_eq in Hd; lia.
Qed.

Lemma flip_bit_bytes h i k : bytes h -> 0 <= k < 8 -> bytes (flip_bit h i k).
Proof.
  intros Hh Hk. revert i. induction Hh as [|b h Hb Hh IH]; intros i.
  - destruct i; constructor.
  - destruct i as [|i]; simpl.
    + constructor; [|exact Hh].
      destruct (flip_byte b k Hb Hk) as (delta & -> & Hd & _). exact Hd.
    + constructor; [exact Hb | apply IH].
Qed.

(** A buffer the field decoder returns from, with one bit inverted at an
    offset that enters the checksum, is refused on the checksum. *)
Lemma decode_fields_flipped h header i k :
  bytes h -> (16 <= length h)%nat ->
  decode_fields h = Returns header ->
  In i checksummed_offsets -> 0 <= k < 8 ->
  decode_fields (flip_bit h i k) = Exits ChecksumMismatch.
Proof.
  intros Hh Hlen Hdec Hi Hk.
  assert (Hh' : bytes (flip_bit h i k)) by (apply flip_bit_bytes; assumption).
  unfold decode_fields in Hdec.
  destruct (bad_magic_or_version h) eqn:Hmagic; [discriminate|].
  destruct (Z.eqb_spec (currentchecksum_of h) (embedded_checksum h))
    as [Hsum|]; [|discriminate].
  clear Hdec.
  assert (Hi' : (6 <= i)%nat /\ (i < 16)%nat /\ i <> 12%nat /\ i <> 13%nat)
    by (unfold checksummed_offsets in Hi; simpl in Hi; lia).
  unfold decode_fields.
  assert (Hmagic' : bad_magic_or_version (flip_bit h i k) = false).
  { rewrite <- Hmagic. unfold bad_magic_or_version, version_of.
    rewrite !at_flip_other by lia. reflexivity. }
  rewrite Hmagic'.
  rewrite currentchecksum_of_value, embedded_checksum_value in * by assumption.
  rewrite (at_flip_other h i k 16), (at_flip_other h i k 17),
    (at_flip_other h i k 4), (at_flip_other h i k 5) by lia.
  rewrite <- Hsum. clear Hsum.
  pose proof (at_flip_same h i k ltac:(lia)) as Hsame.
  destruct (flip_byte (at_ h i) k (at_byte h i Hh) Hk)
    as (delta & Hdelta & _ & Hrange).
  rewrite Hdelta in Hsame. clear Hdelta.
  unfold checksummed_offsets in Hi. simpl in Hi.
  match goal with |- (if negb (?a =? ?b) then _ else _) = _ =>
    destruct (Z.eqb_spec a b) as [E|_]; [exfalso | reflexivity] end.
  decompose [or] Hi; try contradiction; subst i; clear Hi Hi';
    rewrite Hsame in E; clear Hsame;
    repeat match type of E with
    | context [at_ (flip_bit h ?i k) ?j] =>
        rewrite (at_flip_other h i k j) in E by lia
    end;
    revert E; generalize (at_ h 4) (at_ h 5) (at_ h 6) (at_ h 7) (at_ h 8)
      (at_ h 9) (at_ h 10) (at_ h 11) (at_ h 14) (at_ h 15); intros;
    Z.div_mod_to_equations; lia.
Qed.

(** C3, as the code has it: in a header stored by [createMsgHeader], a
    single inverted bit in the message type, the flags, the sequence number
    (offsets 6 to 11) or the low half of the body length (offsets 14 and
    15) makes the checksum the decoder computes from the fields differ
    from the stored one, and the field decoder exits on the checksum. *)
Theorem bit_flip_in_checksummed_field
    (config : Configuration) (msgtype : Z) (d : list Z)
    (flags sequenceNr : Z) (header : list Z) (i : nat) (k : Z) :
  createMsgHeader config msgtype (Some d) flags sequenceNr = Returns header ->
  In i checksummed_offsets -> 0 <= k < 8 ->
  decode_fields (flip_bit header i k) = Exits ChecksumMismatch.
Proof.
  intros H Hi Hk.
  destruct (createMsgHeader_inv _ _ _ _ _ _ H) as (d' & n & Hd & Hn & _ & E).
  injection Hd as <-.
  eapply decode_fields_flipped; eauto.
  - subst header. cbv zeta. apply header_bytes_bytes, sign_body_bytes.
  - subst header. cbv zeta.
    rewrite header_bytes_length by apply sign_body_length. lia.
  - apply (decode_fields_created _ _ _ _ _ _ _ H Hn).
Qed.

Lemma bit_flip_in_checksummed_field_witness :
  decode_fields (flip_bit hello_header 11 0) = Exits ChecksumMismatch.
Proof.
  apply (bit_flip_in_checksummed_field cylc_config _MSG_INVOKE
           (bytes_of_string "hello" ++ [NUL]) 0 0).
  - exact hello_header_created.
  - simpl. tauto.
  - lia.
Defined.

(** C3 as stated fails: bit 0 of byte 18, the first byte of the digest, lies
    outside the checksum field, yet with it inverted the decoder does not
    exit on the checksum, and the field decoder returns a header.  The same
    holds of bit 0 of byte 12, the top byte of the body length. *)
Lemma bit_flip_outside_checksummed_fields :
  createMsgHeader cylc_config _MSG_INVOKE
    (Some (bytes_of_string "hello" ++ [NUL])) 0 0 = Returns hello_header
  /\ parseMessageHeader (Some (flip_bit hello_header 18 0))
     <> Exits ChecksumMismatch
  /\ decode_fields (flip_bit hello_header 18 0)
     = Returns {| header_type := 4; header_flags := 8; header_sequence := 0;
                  header_datasize := 5;
                  header_hmac :=
                    [245; 193; 37; 4; 133; 128; 148; 77; 201; 95; 172; 201;
                     185; 66; 157; 27; 66; 20; 70; 5] |}
  /\ decode_fields (flip_bit hello_header 12 0)
     = Returns {| header_type := 4; header_flags := 8; header_sequence := 0;
                  header_datasize := 16777221;
                  header_hmac := skipn 18 hello_header |}.
Proof.
  split; [exact hello_header_created|].
  split; [vm_compute; discriminate|].
  split; vm_compute; reflexivity.
Qed.

(** ** Receipt of the body *)

Lemma memcmp_zero a b n :
  length a = n -> length b = n -> (memcmp a b n = 0 <-> a = b).
Proof.
  revert a b. induction n as [|n IH]; intros a b Ha Hb.
  - destruct a, b; try discriminate. simpl. tauto.
  - destruct a as [|x a], b as [|y b]; try discriminate. simpl.
    injection Ha as Ha. injection Hb as Hb.
    destruct (Z.eqb_spec x y) as [->|Hxy].
    + rewrite (IH a b Ha Hb). split; [intros ->; reflexivity | congruence].
    + split; [lia | congruence].
Qed.

Lemma type_test_passes requiredMsgType header :
  requiredMsgType = 0 \/ header_type header = requiredMsgType ->
  negb (requiredMsgType =? 0) && negb (header_type header =? requiredMsgType)
  = false.
Proof.
  intros [->| ->].
  - reflexivity.
  - rewrite Z.eqb_refl. apply andb_false_r.
Qed.

Lemma hmac_sha1_of_read key keylen got junk :
  hmac_sha1 key keylen (got ++ junk) (Z.of_nat (length got))
  = hmac_sha1 key keylen got (Z.of_nat (length got)).
Proof.
  unfold hmac_sha1. rewrite Nat2Z.id, firstn_app, Nat.sub_diag, firstn_all.
  rewrite firstn_O, app_nil_r. reflexivity.
Qed.

(** C1: with the HMAC flag set in the header and a secret configured,
    [getMessage] computes the keyed hash of the bytes it has read and exits
    with the hmac diagnostic exactly when that hash EQUALS the digest of
    the header: line 103 tests the negation of [memcmp]. *)
Theorem hmac_test_is_inverted
    (config : Configuration) (key data0 sock : list Z)
    (requiredMsgType : Z) (header : MessageHeader) :
  hmac_key config = Some key ->
  Z.land (header_flags header) _FLAGS_HMAC <> 0 ->
  requiredMsgType = 0 \/ header_type header = requiredMsgType ->
  length (header_hmac header) = 20%nat ->
  receive_body config data0 sock requiredMsgType header = Exits HmacMismatch
  <-> hmac_sha1 key (keyLen config) (body_read sock)
        (Z.of_nat (length (body_read sock)))
      = header_hmac header.
Proof.
  intros Hkey Hflag Htype Hlen. unfold receive_body, read, body_read.
  rewrite (type_test_passes _ _ Htype), Hkey.
  destruct (Z.eqb_spec (Z.land (header_flags header) _FLAGS_HMAC) 0)
    as [E|_]; [contradiction|]. cbn [negb].
  rewrite hmac_sha1_of_read.
  match goal with |- context [memcmp ?a ?b ?n =? 0] =>
    pose proof (memcmp_zero a b n Hlen (hmac_sha1_length _ _ _ _)) as Hm;
    destruct (Z.eqb_spec (memcmp a b n) 0) as [E|E] end.
  - split; [intros _; symmetry; apply Hm, E | reflexivity].
  - split; [discriminate | intros E'; exfalso; apply E, Hm; symmetry; apply E'].
Qed.

Example hello_header_decoded :
  decode_fields hello_header = Returns hello_decoded.
Proof. vm_compute. reflexivity. Qed.

(** The message built with the key "cylc" is refused by a receiver holding
    the same key. *)
Lemma hmac_test_is_inverted_witness :
  receive_body cylc_config (repeat 0 256) (bytes_of_string "hello")
    _MSG_INVOKE hello_decoded
  = Exits HmacMismatch.
Proof.
  apply (proj2 (hmac_test_is_inverted cylc_config [99; 121; 108; 99; 0]
                  (repeat 0 256) (bytes_of_string "hello") _MSG_INVOKE
                  hello_decoded eq_refl ltac:(vm_compute; discriminate)
                  (or_intror eq_refl) eq_refl)).
  vm_compute. reflexivity.
Defined.

(** With one byte of the body changed on the way the same receiver lets
    the message past the hmac test, on to the store of line 118. *)
Example corrupted_body_passes_hmac_test :
  receive_body cylc_config (repeat 0 256) (bytes_of_string "hellx")
    _MSG_INVOKE hello_decoded
  = Undefined StoreUnassigned.
Proof. vm_compute. reflexivity. Qed.

(** The fields of [plain_header] are read back as they were given. *)
Example plain_header_round_trip :
  decode_fields plain_header
  = Returns {| header_type := _MSG_INVOKE; header_flags := 0;
               header_sequence := 0; header_datasize := 5;
               header_hmac := repeat 0 20 |}.
Proof.
  apply (decode_fields_round_trip config_unset _MSG_INVOKE
           (bytes_of_string "hello" ++ [NUL]) 5 0 0);
    first [exact plain_header_created | reflexivity
          | unfold _MSG_INVOKE; lia].
Qed.

(** ** getMessage as a whole *)

(** The header test comes first, and no buffer passes it. *)
Lemma getMessage_never_returns config headerdata0 data0 sock requiredMsgType r :
  getMessage config headerdata0 data0 sock requiredMsgType <> Returns r.
Proof.
  unfold getMessage, read. rewrite parseMessageHeader_by_first_nul.
  destruct (first_nul _) as [n|]; [|discriminate].
  destruct (n =? 38)%nat; discriminate.
Qed.

(** X24: a stream that starts with a header stored by [createMsgHeader],
    under any configuration, makes [getMessage] exit with the size
    diagnostic, whatever the receiver's configuration and the required
    type, before the body is read. *)
Lemma getMessage_refuses_created_header
    config msgtype data flags sequenceNr header
    config' headerdata0 data0 body requiredMsgType :
  createMsgHeader config msgtype data flags sequenceNr = Returns header ->
  getMessage config' headerdata0 data0 (header ++ body) requiredMsgType
  = Exits SizeMismatch.
Proof.
  intros H.
  destruct (createMsgHeader_inv _ _ _ _ _ _ H) as (d & n & _ & _ & _ & E).
  assert (Hlen : length header = 38%nat).
  { subst header. cbv zeta. apply header_bytes_length, sign_body_length. }
  unfold getMessage, read. change (Z.to_nat HEADER_SIZE) with 38%nat.
  rewrite <- Hlen at 1 2. rewrite <- (Nat.add_0_r (length header)) at 1 2.
  rewrite firstn_app_2, firstn_O, app_nil_r.
  subst header. cbv zeta. rewrite header_bytes_size_mismatch. reflexivity.
Qed.
(** ** More on createMsgHeader *)

Lemma first_nul_app_nul body junk :
  ~ In NUL body -> first_nul (body ++ NUL :: junk) = Some (length body).
Proof.
  induction body as [|c body IH]; intros Hnot; [reflexivity|].
  simpl. destruct (Z.eqb_spec c NUL) as [->|_].
  - exfalso. apply Hnot. left. reflexivity.
  - rewrite IH; [reflexivity|]. intros Hin. apply Hnot. right. exact Hin.
Qed.

Lemma hello_has_no_nul :
  ~ In NUL (bytes_of_string "hello").
Proof. vm_compute. intuition discriminate. Qed.

(** X1: for a NUL-terminated body, [createMsgHeader] exits with the
    sequence diagnostic exactly when [sequenceNr] exceeds 65535 and stores a
    header exactly when it does not; a negative [sequenceNr] is not
    refused. *)
Theorem sequence_number_test
    (config : Configuration) (msgtype : Z) (d : list Z) (n : nat)
    (flags sequenceNr : Z) :
  first_nul d = Some n ->
  (createMsgHeader config msgtype (Some d) flags sequenceNr
   = Exits SequenceOutOfRange <-> 0xffff < sequenceNr)
  /\ ((exists header,
         createMsgHeader config msgtype (Some d) flags sequenceNr
         = Returns header) <-> sequenceNr <= 0xffff).
Proof.
  intros Hn. destruct (Z_le_gt_dec sequenceNr 0xffff) as [Hle|Hgt].
  - rewrite (createMsgHeader_returns _ _ _ _ _ _ Hn Hle). split; split.
    + discriminate.
    + lia.
    + intros _. exact Hle.
    + intros _. eexists. reflexivity.
  - assert (E : createMsgHeader config msgtype (Some d) flags sequenceNr
                = Exits SequenceOutOfRange).
    { unfold createMsgHeader, strlen. rewrite Hn. cbn [bind null_guard].
      unfold build_header. destruct (sign_body _ _ _ _).
      destruct (Z.gtb_spec sequenceNr 0xffff); [reflexivity | lia]. }
    rewrite E. split; split.
    + intros _. lia.
    + reflexivity.
    + intros [header H]. discriminate.
    + lia.
Qed.

Lemma sequence_number_test_witness :
  createMsgHeader config_unset _MSG_INVOKE
    (Some (bytes_of_string "hello" ++ [NUL])) 0 65536
  = Exits SequenceOutOfRange
  /\ exists header,
       createMsgHeader config_unset _MSG_INVOKE
         (Some (bytes_of_string "hello" ++ [NUL])) 0 (-1)
       = Returns header.
Proof.
  split.
  - apply (proj1 (sequence_number_test config_unset _MSG_INVOKE
                    (bytes_of_string "hello" ++ [NUL]) 5 0 65536 eq_refl)).
    lia.
  - apply (proj2 (sequence_number_test config_unset _MSG_INVOKE
                    (bytes_of_string "hello" ++ [NUL]) 5 0 (-1) eq_refl)).
    lia.
Defined.

(** X2: every header [createMsgHeader] stores has 38 bytes, each in the
    range of a byte, and starts with the tag PYRO and the version 0, 44. *)
Theorem created_header_layout
    (config : Configuration) (msgtype : Z) (data : option (list Z))
    (flags sequenceNr : Z) (header : list Z) :
  createMsgHeader config msgtype data flags sequenceNr = Returns header ->
  length header = 38%nat
  /\ bytes header
  /\ firstn 6 header = [char_P; char_Y; char_R; char_O; 0; PROTOCOL_VERSION].
Proof.
  intros H.
  destruct (createMsgHeader_inv _ _ _ _ _ _ H) as (d & n & _ & _ & _ & ->).
  cbv zeta. repeat split.
  - apply header_bytes_length, sign_body_length.
  - apply header_bytes_bytes, sign_body_bytes.
Qed.

Lemma created_header_layout_witness :
  length hello_header = 38%nat
  /\ bytes hello_header
  /\ firstn 6 hello_header = [80; 89; 82; 79; 0; 44].
Proof.
  exact (created_header_layout cylc_config _MSG_INVOKE
           (Some (bytes_of_string "hello" ++ [NUL])) 0 0 hello_header
           hello_header_created).
Defined.

Lemma be32_bytes x :
  2 ^ 24 * uchar (Z.land (Z.shiftr x 24) 0xff)
  + 2 ^ 16 * uchar (Z.land (Z.shiftr x 16) 0xff)
  + 256 * uchar (Z.land (Z.shiftr x 8) 0xff)
  + uchar (Z.land x 0xff)
  = x mod 2 ^ 32.
Proof.
  unfold uchar. rewrite !land_ff, !Z.shiftr_div_pow2 by lia.
  Z.div_mod_to_equations. lia.
Qed.

(** X3: the stored fields are the arguments reduced to the width of the
    field, with no test of the message type and none of a negative
    sequence number: type and sequence number modulo 65536, the flags
    (with the HMAC bit when a key is configured) modulo 65536, and the
    length of the body up to its first NUL modulo 2^32, most significant
    byte first. *)
Theorem created_header_fields
    (config : Configuration) (msgtype : Z) (d : list Z) (n : nat)
    (flags sequenceNr : Z) (header : list Z) :
  createMsgHeader config msgtype (Some d) flags sequenceNr = Returns header ->
  first_nul d = Some n ->
  256 * at_ header 6 + at_ header 7 = msgtype mod 65536
  /\ 256 * at_ header 8 + at_ header 9
     = (if is_configured (hmac_key config)
        then Z.lor flags _FLAGS_HMAC else flags) mod 65536
  /\ 256 * at_ header 10 + at_ header 11 = sequenceNr mod 65536
  /\ 2 ^ 24 * at_ header 12 + 2 ^ 16 * at_ header 13
     + 256 * at_ header 14 + at_ header 15
     = Z.of_nat n mod 2 ^ 32.
Proof.
  intros H Hn.
  destruct (createMsgHeader_inv _ _ _ _ _ _ H) as (d' & n' & Hd & Hn' & _ & ->).
  injection Hd as <-. rewrite Hn in Hn'. injection Hn' as <-.
  cbv zeta. rewrite sign_body_flags. header_at.
  rewrite !be16_bytes, be32_bytes. repeat split.
Qed.

Lemma created_header_fields_witness :
  256 * at_ hello_header 6 + at_ hello_header 7 = 4
  /\ 256 * at_ hello_header 8 + at_ hello_header 9 = 8
  /\ 256 * at_ hello_header 10 + at_ hello_header 11 = 0
  /\ 2 ^ 24 * at_ hello_header 12 + 2 ^ 16 * at_ hello_header 13
     + 256 * at_ hello_header 14 + at_ hello_header 15 = 5.
Proof.
  exact (created_header_fields cylc_config _MSG_INVOKE
           (bytes_of_string "hello" ++ [NUL]) 5 0 0 hello_header
           hello_header_created eq_refl).
Defined.

(** X4: the body is what precedes the first NUL byte of [data]; the bytes
    after it have no influence on the header, digest included. *)
Theorem header_ignores_bytes_after_nul
    (config : Configuration) (msgtype : Z) (body junk : list Z)
    (flags sequenceNr : Z) :
  ~ In NUL body ->
  createMsgHeader config msgtype (Some (body ++ NUL :: junk)) flags sequenceNr
  = createMsgHeader config msgtype (Some (body ++ [NUL])) flags sequenceNr.
Proof.
  intros Hbody. unfold createMsgHeader, strlen.
  rewrite !first_nul_app_nul by exact Hbody. cbn [bind null_guard].
  unfold build_header, sign_body. destruct (hmac_key config) as [key|].
  - rewrite !hmac_sha1_of_read. reflexivity.
  - reflexivity.
Qed.

Lemma header_ignores_bytes_after_nul_witness :
  createMsgHeader cylc_config _MSG_INVOKE
    (Some (bytes_of_string "hello" ++ NUL :: bytes_of_string "world")) 0 0
  = createMsgHeader cylc_config _MSG_INVOKE
      (Some (bytes_of_string "hello" ++ [NUL])) 0 0.
Proof.
  apply (header_ignores_bytes_after_nul cylc_config _MSG_INVOKE
           (bytes_of_string "hello") (bytes_of_string "world") 0 0).
  exact hello_has_no_nul.
Defined.

(** X5: the first 18 bytes of the header, checksum included, depend on
    the body through its length only: two bodies of equal length give
    headers that agree up to the digest field. *)
Theorem header_prefix_blind_to_body
    (config : Configuration) (msgtype : Z) (d1 d2 : list Z) (n : nat)
    (flags sequenceNr : Z) (header1 header2 : list Z) :
  first_nul d1 = Some n -> first_nul d2 = Some n ->
  createMsgHeader config msgtype (Some d1) flags sequenceNr = Returns header1 ->
  createMsgHeader config msgtype (Some d2) flags sequenceNr = Returns header2 ->
  firstn 18 header1 = firstn 18 header2.
Proof.
  intros Hn1 Hn2 H1 H2.
  destruct (createMsgHeader_inv _ _ _ _ _ _ H1) as (d & m & Hd & Hm & _ & ->).
  injection Hd as <-. rewrite Hn1 in Hm. injection Hm as <-.
  destruct (createMsgHeader_inv _ _ _ _ _ _ H2) as (d & m & Hd & Hm & _ & ->).
  injection Hd as <-. rewrite Hn2 in Hm. injection Hm as <-.
  cbv zeta. rewrite !sign_body_flags. reflexivity.
Qed.

Lemma header_prefix_blind_to_body_witness :
  exists header2,
    createMsgHeader cylc_config _MSG_INVOKE
      (Some (bytes_of_string "world" ++ [NUL])) 0 0 = Returns header2
    /\ firstn 18 hello_header = firstn 18 header2.
Proof.
  eexists. split; [vm_compute; reflexivity|].
  apply (header_prefix_blind_to_body cylc_config _MSG_INVOKE
           (bytes_of_string "hello" ++ [NUL])
           (bytes_of_string "world" ++ [NUL]) 5 0 0);
    first [exact hello_header_created | vm_compute; reflexivity].
Defined.

(** X6: with a key configured the caller need not pass _FLAGS_HMAC:
    the header is the same with and without it. *)
Theorem hmac_flag_is_implied
    (config : Configuration) (key : list Z) (msgtype : Z)
    (data : option (list Z)) (flags sequenceNr : Z) :
  hmac_key config = Some key ->
  createMsgHeader config msgtype data (Z.lor flags _FLAGS_HMAC) sequenceNr
  = createMsgHeader config msgtype data flags sequenceNr.
Proof.
  intros Hkey. unfold createMsgHeader.
  destruct (strlen data) as [dataLen| |]; cbn [bind]; try reflexivity.
  destruct (null_guard data) as [d| |]; cbn [bind]; try reflexivity.
  unfold build_header, sign_body. rewrite Hkey.
  rewrite <- Z.lor_assoc, Z.lor_diag. reflexivity.
Qed.

Lemma hmac_flag_is_implied_witness :
  createMsgHeader cylc_config _MSG_INVOKE
    (Some (bytes_of_string "hello" ++ [NUL])) (Z.lor 0 _FLAGS_HMAC) 0
  = createMsgHeader cylc_config _MSG_INVOKE
      (Some (bytes_of_string "hello" ++ [NUL])) 0 0.
Proof.
  apply (hmac_flag_is_implied cylc_config [99; 121; 108; 99; 0]).
  reflexivity.
Defined.

(** X7: the checksum is a plain sum, so it does not tell the message
    type from the sequence number: exchanging the two arguments leaves the
    checksum bytes as they were. *)
Theorem checksum_symmetric_in_type_and_sequence
    (config : Configuration) (a b : Z) (data : option (list Z)) (flags : Z)
    (header1 header2 : list Z) :
  createMsgHeader config a data flags b = Returns header1 ->
  createMsgHeader config b data flags a = Returns header2 ->
  at_ header1 16 = at_ header2 16 /\ at_ header1 17 = at_ header2 17.
Proof.
  intros H1 H2.
  destruct (createMsgHeader_inv _ _ _ _ _ _ H1) as (d & n & Hd & Hn & _ & ->).
  destruct (createMsgHeader_inv _ _ _ _ _ _ H2) as (d' & n' & Hd' & Hn' & _ & ->).
  rewrite Hd in Hd'. injection Hd' as <-. rewrite Hn in Hn'. injection Hn' as <-.
  cbv zeta. header_at. unfold uchar. rewrite !shiftr8_div, !land_ff.
  set (f := fst (sign_body config d (Z.of_nat n) flags)).
  pose proof (headerchecksum_of_mod a (Z.of_nat n) f b) as E1.
  pose proof (headerchecksum_of_mod b (Z.of_nat n) f a) as E2.
  replace (b + PROTOCOL_VERSION + Z.of_nat n + f + a + PYRO_MAGIC)
    with (a + PROTOCOL_VERSION + Z.of_nat n + f + b + PYRO_MAGIC) in E2 by lia.
  rewrite <- E2 in E1. clear E2.
  revert E1. generalize (headerchecksum_of a (Z.of_nat n) f b)
    (headerchecksum_of b (Z.of_nat n) f a). intros x y E.
  split; Z.div_mod_to_equations; lia.
Qed.

Lemma checksum_symmetric_in_type_and_sequence_witness :
  exists header2,
    createMsgHeader cylc_config 0
      (Some (bytes_of_string "hello" ++ [NUL])) 0 _MSG_INVOKE
    = Returns header2
    /\ at_ hello_header 16 = at_ header2 16
    /\ at_ hello_header 17 = at_ header2 17.
Proof.
  eexists. split; [vm_compute; reflexivity|].
  apply (checksum_symmetric_in_type_and_sequence cylc_config _MSG_INVOKE 0
           (Some (bytes_of_string "hello" ++ [NUL])) 0);
    first [exact hello_header_created | vm_compute; reflexivity].
Defined.

(** ** setConfig *)

Lemma first_nul_firstn h n :
  first_nul h = Some n -> first_nul (firstn (S n) h) = Some n.
Proof.
  revert n. induction h as [|c h IH]; intros n Hn; [discriminate|].
  simpl in Hn. cbn [firstn first_nul]. destruct (c =? NUL).
  - injection Hn as <-. reflexivity.
  - destruct (first_nul h) as [m|] eqn:Hm; [|discriminate]. injection Hn as <-.
    rewrite (IH m eq_refl). reflexivity.
Qed.

(** X8: [setConfig] with a NUL-terminated key stores a copy of the key up
    to and including its first NUL and the length of the key without it,
    so that afterwards [config.keyLen] is [strlen(config.hmac_key)] and a
    key is configured, also for the empty key. *)
Theorem setConfig_stores_the_key (key : list Z) (n : nat) :
  first_nul key = Some n ->
  exists config,
    setConfig (Some key) = Returns config
    /\ hmac_key config = Some (firstn (S n) key)
    /\ keyLen config = Z.of_nat n
    /\ strlen (hmac_key config) = Returns (keyLen config)
    /\ is_configured (hmac_key config) = true.
Proof.
  intros Hn. eexists. split.
  - unfold setConfig, strlen. rewrite Hn. cbn [bind]. reflexivity.
  - cbn [hmac_key keyLen is_configured].
    replace (Z.to_nat (Z.of_nat n + 1)) with (S n) by lia.
    repeat split. unfold strlen. rewrite (first_nul_firstn _ _ Hn). reflexivity.
Qed.

Lemma setConfig_stores_the_key_witness :
  exists config,
    setConfig (Some [NUL]) = Returns config
    /\ hmac_key config = Some [NUL]
    /\ keyLen config = 0
    /\ strlen (hmac_key config) = Returns (keyLen config)
    /\ is_configured (hmac_key config) = true.
Proof. exact (setConfig_stores_the_key [NUL] 0 eq_refl). Defined.

(** X9: a header built after [setConfig(key)] carries the HMAC flag and,
    as digest, the keyed hash of the body under the bytes of the key that
    precede its NUL; the terminator is not part of the key. *)
Theorem setConfig_then_createMsgHeader
    (key : list Z) (k : nat) (msgtype : Z) (d : list Z) (n : nat)
    (flags sequenceNr : Z) :
  first_nul key = Some k -> first_nul d = Some n -> sequenceNr <= 0xffff ->
  exists config header,
    setConfig (Some key) = Returns config
    /\ createMsgHeader config msgtype (Some d) flags sequenceNr = Returns header
    /\ Z.land (flags_of header) _FLAGS_HMAC = _FLAGS_HMAC
    /\ skipn 18 header = HMAC.hmac (firstn k key) (firstn n d).
Proof.
  intros Hk Hn Hs.
  exists {| hmac_key := Some (firstn (S k) key); keyLen := Z.of_nat k |}.
  eexists. split; [|split].
  - unfold setConfig, strlen. rewrite Hk. cbn [bind].
    replace (Z.to_nat (Z.of_nat k + 1)) with (S k) by lia. reflexivity.
  - apply createMsgHeader_returns; eassumption.
  - cbv zeta. rewrite header_bytes_flags by apply sign_body_bytes.
    rewrite sign_body_flags. cbn [hmac_key is_configured].
    split; [apply land_hmac_flag|].
    assert (Hskip : forall a b c e f hm,
      skipn 18 (header_bytes a b c e f hm) = firstn 20 hm) by reflexivity.
    rewrite Hskip, firstn_exact by apply sign_body_length.
    rewrite sign_body_digest. cbn [hmac_key keyLen]. unfold hmac_sha1.
    rewrite !Nat2Z.id, firstn_firstn.
    replace (Nat.min k (S k)) with k by lia. reflexivity.
Qed.

Lemma setConfig_then_createMsgHeader_witness :
  exists config header,
    setConfig (Some (bytes_of_string "cylc" ++ [NUL])) = Returns config
    /\ createMsgHeader config _MSG_INVOKE
         (Some (bytes_of_string "hello" ++ [NUL])) 0 0 = Returns header
    /\ Z.land (flags_of header) _FLAGS_HMAC = _FLAGS_HMAC
    /\ skipn 18 header
       = HMAC.hmac (bytes_of_string "cylc") (bytes_of_string "hello").
Proof.
  apply (setConfig_then_createMsgHeader (bytes_of_string "cylc" ++ [NUL]) 4
           _MSG_INVOKE (bytes_of_string "hello" ++ [NUL]) 5 0 0);
    first [reflexivity | lia].
Defined.

(** ** More on parseMessageHeader *)

(** X10: whatever it is given, NULL included, [parseMessageHeader] exits
    with the size or the tag-and-version diagnostic or runs [strlen] past
    the end of the buffer; it never returns a header and never reaches the
    checksum diagnostic. *)
Theorem parseMessageHeader_outcomes (headerdata : option (list Z)) :
  parseMessageHeader headerdata = Exits SizeMismatch
  \/ parseMessageHeader headerdata = Exits BadMagicOrVersion
  \/ parseMessageHeader headerdata = Undefined StrlenUnterminated.
Proof.
  destruct headerdata as [h|]; [|left; reflexivity].
  rewrite parseMessageHeader_by_first_nul.
  destruct (first_nul h) as [n|]; [|right; right; reflexivity].
  destruct (n =? 38)%nat; [right; left | left]; reflexivity.
Qed.

Lemma bad_magic_or_version_iff h :
  bytes h ->
  bad_magic_or_version h = false
  <-> at_ h 0 = char_P /\ at_ h 1 = char_Y /\ at_ h 2 = char_R
      /\ at_ h 3 = char_O /\ at_ h 4 = 0 /\ at_ h 5 = PROTOCOL_VERSION.
Proof.
  intros Hh. unfold bad_magic_or_version.
  rewrite (version_of_value h Hh).
  pose proof (at_byte h 4 Hh) as H4. pose proof (at_byte h 5 Hh) as H5.
  unfold byte, PROTOCOL_VERSION in *.
  rewrite !orb_false_iff, !negb_false_iff, !Z.eqb_eq. split.
  - intros ((((H0 & H1) & H2) & H3) & Hv). repeat split; try assumption; lia.
  - intros (H0 & H1 & H2 & H3 & E4 & E5). repeat split; try assumption; lia.
Qed.

Lemma prefix6 (h : list Z) :
  (6 <= length h)%nat ->
  firstn 6 h = [at_ h 0; at_ h 1; at_ h 2; at_ h 3; at_ h 4; at_ h 5].
Proof.
  intros Hlen. do 6 (destruct h as [|? h]; [simpl in Hlen; lia|]).
  reflexivity.
Qed.

(** X11: on a buffer of at least six bytes the decoder exits with the
    tag-and-version diagnostic exactly when the first six bytes are not
    P, Y, R, O, 0, 44; this test comes before the checksum. *)
Theorem tag_and_version_test (h : list Z) :
  bytes h -> (6 <= length h)%nat ->
  decode_fields h = Exits BadMagicOrVersion
  <-> firstn 6 h <> [char_P; char_Y; char_R; char_O; 0; PROTOCOL_VERSION].
Proof.
  intros Hh Hlen. rewrite (prefix6 h Hlen).
  pose proof (bad_magic_or_version_iff h Hh) as Hiff.
  unfold decode_fields. destruct (bad_magic_or_version h).
  - split; [|reflexivity]. intros _ E. injection E as E0 E1 E2 E3 E4 E5.
    assert (true = false) by (apply Hiff; repeat split; assumption).
    discriminate.
  - split.
    + destruct (negb _); discriminate.
    + intros Hne. exfalso. apply Hne.
      destruct (proj1 Hiff eq_refl) as (-> & -> & -> & -> & -> & ->).
      reflexivity.
Qed.

Lemma tag_and_version_test_witness :
  decode_fields (flip_bit hello_header 5 0) = Exits BadMagicOrVersion.
Proof.
  apply (proj2 (tag_and_version_test (flip_bit hello_header 5 0)
           ltac:(repeat (apply Forall_cons; [unfold byte; cbv; split; congruence|]);
                 apply Forall_nil)
           ltac:(simpl; lia))).
  vm_compute. discriminate.
Defined.

Lemma at_app_l h rest i : (i < length h)%nat -> at_ (h ++ rest) i = at_ h i.
Proof. intros Hi. unfold at_. apply app_nth1. exact Hi. Qed.

Lemma digest_field_app (h rest : list Z) :
  length h = 38%nat ->
  firstn 20 (skipn 18 (h ++ rest)) = firstn 20 (skipn 18 h).
Proof.
  intros Hlen. rewrite skipn_app. rewrite (firstn_app 20).
  rewrite length_skipn, Hlen.
  change (20 - (38 - 18))%nat with 0%nat. rewrite firstn_O, app_nil_r.
  reflexivity.
Qed.

(** X12: the decoder looks at the first 38 bytes only: what follows them
    in the buffer changes nothing, and the digest it returns has 20
    bytes. *)
Theorem decode_fields_first_38_bytes (h rest : list Z) :
  length h = 38%nat ->
  decode_fields (h ++ rest) = decode_fields h
  /\ forall header, decode_fields h = Returns header ->
                    length (header_hmac header) = 20%nat.
Proof.
  intros Hlen. split.
  - unfold decode_fields, bad_magic_or_version, currentchecksum_of,
      embedded_checksum, type_of, flags_of, sequence_of, datasize_of,
      version_of.
    change (Z.to_nat hmac_size) with 20%nat.
    rewrite !at_app_l by lia. rewrite (digest_field_app h rest Hlen).
    reflexivity.
  - intros header. unfold decode_fields.
    destruct (bad_magic_or_version _); [discriminate|].
    destruct (negb _); [discriminate|].
    intros H.
    assert (E : header_hmac header = firstn 20 (skipn 18 h))
      by (injection H as <-; reflexivity).
    rewrite E, length_firstn, length_skipn, Hlen. reflexivity.
Qed.

Lemma decode_fields_first_38_bytes_witness :
  decode_fields (hello_header ++ bytes_of_string "hello")
  = decode_fields hello_header.
Proof.
  apply (decode_fields_first_38_bytes hello_header (bytes_of_string "hello")).
  reflexivity.
Defined.

Lemma int_of_range x : - 2 ^ 31 <= int_of x < 2 ^ 31.
Proof.
  unfold int_of. pose proof (Z.mod_pos_bound (x + 2 ^ 31) (2 ^ 32)). lia.
Qed.

Lemma shl8_or_range x b : - 2 ^ 31 <= shl8_or x b < 2 ^ 31.
Proof.
  unfold shl8_or. rewrite shiftl8_mul, land_ff.
  pose proof (int_of_range (256 * x)) as Hr.
  destruct (int_of_wrap (256 * x)) as [k Hk]. rewrite Hk in *.
  replace (256 * x + 2 ^ 32 * k) with (256 * (x + 2 ^ 24 * k)) in * by lia.
  pose proof (Z.mod_pos_bound b 256).
  rewrite lor_shl8 by lia. lia.
Qed.

Lemma decode_fields_returns h header :
  decode_fields h = Returns header ->
  bad_magic_or_version h = false
  /\ currentchecksum_of h = embedded_checksum h
  /\ header_type header = type_of h
  /\ header_flags header = flags_of h
  /\ header_sequence header = sequence_of h
  /\ header_datasize header = datasize_of h
  /\ header_hmac header = firstn 20 (skipn 18 h).
Proof.
  unfold decode_fields. destruct (bad_magic_or_version h); [discriminate|].
  destruct (Z.eqb_spec (currentchecksum_of h) (embedded_checksum h)) as [E|];
    [|discriminate].
  cbn [negb]. intros H.
  repeat split; try assumption; injection H as <-; reflexivity.
Qed.

(** X13: the fields the decoder returns from a buffer of bytes: type,
    flags and sequence number lie between 0 and 65535, the body length is
    a 32-bit signed number that is negative exactly when the top byte of
    the length field is 128 or more, and the digest consists of bytes. *)
Theorem decoded_field_ranges (h : list Z) (header : MessageHeader) :
  bytes h -> decode_fields h = Returns header ->
  0 <= header_type header < 65536
  /\ 0 <= header_flags header < 65536
  /\ 0 <= header_sequence header < 65536
  /\ - 2 ^ 31 <= header_datasize header < 2 ^ 31
  /\ (header_datasize header < 0 <-> 128 <= at_ h 12)
  /\ bytes (header_hmac header).
Proof.
  intros Hh H.
  destruct (decode_fields_returns h header H)
    as (_ & _ & -> & -> & -> & -> & ->).
  rewrite (type_of_value h Hh), (flags_of_value h Hh),
    (sequence_of_value h Hh).
  pose proof (at_byte h 6 Hh). pose proof (at_byte h 7 Hh).
  pose proof (at_byte h 8 Hh). pose proof (at_byte h 9 Hh).
  pose proof (at_byte h 10 Hh). pose proof (at_byte h 11 Hh).
  pose proof (at_byte h 12 Hh). pose proof (at_byte h 13 Hh).
  pose proof (at_byte h 14 Hh). pose proof (at_byte h 15 Hh).
  unfold byte in *.
  assert (Hr : - 2 ^ 31 <= datasize_of h < 2 ^ 31)
    by (unfold datasize_of; apply shl8_or_range).
  destruct (datasize_of_wrap h Hh) as [k Hk].
  repeat split; try lia.
  unfold bytes. rewrite <- (firstn_skipn 18 h) in Hh.
  apply Forall_app in Hh. destruct Hh as [_ Hh].
  apply bytes_firstn. exact Hh.
Qed.

Lemma decoded_field_ranges_witness :
  0 <= header_type hello_decoded < 65536
  /\ 0 <= header_flags hello_decoded < 65536
  /\ 0 <= header_sequence hello_decoded < 65536
  /\ - 2 ^ 31 <= header_datasize hello_decoded < 2 ^ 31
  /\ (header_datasize hello_decoded < 0 <-> 128 <= at_ hello_header 12)
  /\ bytes (header_hmac hello_decoded).
Proof.
  exact (decoded_field_ranges hello_header hello_decoded hello_header_bytes
           hello_header_decoded).
Defined.

Lemma prefix18 (h : list Z) :
  (18 <= length h)%nat ->
  h = [at_ h 0; at_ h 1; at_ h 2; at_ h 3; at_ h 4; at_ h 5; at_ h 6;
       at_ h 7; at_ h 8; at_ h 9; at_ h 10; at_ h 11; at_ h 12; at_ h 13;
       at_ h 14; at_ h 15; at_ h 16; at_ h 17] ++ skipn 18 h.
Proof.
  intros Hlen. do 18 (destruct h as [|? h]; [simpl in Hlen; lia|]).
  reflexivity.
Qed.

(** X14: the decoder is injective on buffers of 38 bytes: two buffers
    from which it returns the same header are the same buffer. *)
Theorem decode_fields_injective (h1 h2 : list Z) (header : MessageHeader) :
  bytes h1 -> bytes h2 -> length h1 = 38%nat -> length h2 = 38%nat ->
  decode_fields h1 = Returns header -> decode_fields h2 = Returns header ->
  h1 = h2.
Proof.
  intros Hb1 Hb2 Hl1 Hl2 H1 H2.
  destruct (decode_fields_returns h1 header H1)
    as (M1 & C1 & T1 & F1 & S1 & D1 & X1).
  destruct (decode_fields_returns h2 header H2)
    as (M2 & C2 & T2 & F2 & S2 & D2 & X2).
  apply (bad_magic_or_version_iff h1 Hb1) in M1.
  apply (bad_magic_or_version_iff h2 Hb2) in M2.
  destruct M1 as (A0 & A1 & A2 & A3 & A4 & A5).
  destruct M2 as (B0 & B1 & B2 & B3 & B4 & B5).
  rewrite T1 in T2. rewrite F1 in F2. rewrite S1 in S2. rewrite D1 in D2.
  rewrite X1 in X2. clear T1 F1 S1 D1 X1 H1 H2.
  rewrite (type_of_value h1 Hb1), (type_of_value h2 Hb2) in T2.
  rewrite (flags_of_value h1 Hb1), (flags_of_value h2 Hb2) in F2.
  rewrite (sequence_of_value h1 Hb1), (sequence_of_value h2 Hb2) in S2.
  destruct (datasize_of_wrap h1 Hb1) as [k1 K1].
  destruct (datasize_of_wrap h2 Hb2) as [k2 K2].
  rewrite K1, K2 in D2. clear K1 K2.
  rewrite (currentchecksum_of_value h1 Hb1),
    (embedded_checksum_value h1 Hb1) in C1.
  rewrite (currentchecksum_of_value h2 Hb2),
    (embedded_checksum_value h2 Hb2) in C2.
  assert (R1 := fun i => at_byte h1 i Hb1).
  assert (R2 := fun i => at_byte h2 i Hb2).
  unfold byte in R1, R2.
  pose proof (R1 6%nat). pose proof (R1 7%nat). pose proof (R1 8%nat).
  pose proof (R1 9%nat). pose proof (R1 10%nat). pose proof (R1 11%nat).
  pose proof (R1 12%nat). pose proof (R1 13%nat). pose proof (R1 14%nat).
  pose proof (R1 15%nat). pose proof (R1 16%nat). pose proof (R1 17%nat).
  pose proof (R2 6%nat). pose proof (R2 7%nat). pose proof (R2 8%nat).
  pose proof (R2 9%nat). pose proof (R2 10%nat). pose proof (R2 11%nat).
  pose proof (R2 12%nat). pose proof (R2 13%nat). pose proof (R2 14%nat).
  pose proof (R2 15%nat). pose proof (R2 16%nat). pose proof (R2 17%nat).
  clear R1 R2.
  assert (E6 : at_ h1 6 = at_ h2 6) by lia.
  assert (E7 : at_ h1 7 = at_ h2 7) by lia.
  assert (E8 : at_ h1 8 = at_ h2 8) by lia.
  assert (E9 : at_ h1 9 = at_ h2 9) by lia.
  assert (E10 : at_ h1 10 = at_ h2 10) by lia.
  assert (E11 : at_ h1 11 = at_ h2 11) by lia.
  assert (E12 : at_ h1 12 = at_ h2 12) by lia.
  assert (E13 : at_ h1 13 = at_ h2 13) by lia.
  assert (E14 : at_ h1 14 = at_ h2 14) by lia.
  assert (E15 : at_ h1 15 = at_ h2 15) by lia.
  assert (E1617 : 256 * at_ h1 16 + at_ h1 17 = 256 * at_ h2 16 + at_ h2 17).
  { rewrite <- C1, <- C2, A4, A5, B4, B5, E6, E7, E8, E9, E10, E11, E14, E15.
    reflexivity. }
  assert (E16 : at_ h1 16 = at_ h2 16) by lia.
  assert (E17 : at_ h1 17 = at_ h2 17) by lia.
  assert (Ex : skipn 18 h1 = skipn 18 h2).
  { rewrite <- (firstn_exact (skipn 18 h1) 20),
      <- (firstn_exact (skipn 18 h2) 20); [exact X2| |];
      rewrite length_skipn; lia. }
  rewrite (prefix18 h1), (prefix18 h2) by lia.
  rewrite Ex, A0, A1, A2, A3, A4, A5, B0, B1, B2, B3, B4, B5,
    E6, E7, E8, E9, E10, E11, E12, E13, E14, E15, E16, E17.
  reflexivity.
Qed.

Lemma decode_fields_injective_witness :
  hello_header ++ [] = hello_header.
Proof.
  apply (decode_fields_injective (hello_header ++ []) hello_header
           hello_decoded);
    first [exact hello_header_bytes | exact hello_header_decoded
          | reflexivity].
Defined.

(** X15: corruption the decoder lets through.  In a buffer it returns a
    header from, a single inverted bit in the upper half of the length
    field (offsets 12 and 13) or past offset 17, in the digest, still
    yields a header, with the same type, flags and sequence number. *)
Theorem undetected_bit_flips
    (h : list Z) (header : MessageHeader) (i : nat) (k : Z) :
  bytes h -> decode_fields h = Returns header ->
  i = 12%nat \/ i = 13%nat \/ (18 <= i)%nat -> 0 <= k < 8 ->
  decode_fields (flip_bit h i k)
  = Returns {| header_type := header_type header;
               header_flags := header_flags header;
               header_sequence := header_sequence header;
               header_datasize := datasize_of (flip_bit h i k);
               header_hmac := firstn 20 (skipn 18 (flip_bit h i k)) |}.
Proof.
  intros Hh H Hi Hk.
  assert (Hh' : bytes (flip_bit h i k)) by (apply flip_bit_bytes; assumption).
  destruct (decode_fields_returns h header H)
    as (M & C & -> & -> & -> & _ & _).
  unfold decode_fields.
  assert (M' : bad_magic_or_version (flip_bit h i k) = false).
  { rewrite <- M. unfold bad_magic_or_version, version_of.
    rewrite !at_flip_other by lia. reflexivity. }
  assert (C' : currentchecksum_of (flip_bit h i k)
               = embedded_checksum (flip_bit h i k)).
  { rewrite currentchecksum_of_value, embedded_checksum_value in * 
      by assumption.
    rewrite !at_flip_other by lia. exact C. }
  rewrite M', C', Z.eqb_refl. cbn [negb].
  unfold type_of, flags_of, sequence_of.
  rewrite !at_flip_other by lia. reflexivity.
Qed.

Lemma undetected_bit_flips_witness :
  decode_fields (flip_bit hello_header 37 7)
  = Returns {| header_type := 4; header_flags := 8; header_sequence := 0;
               header_datasize := 5;
               header_hmac :=
                 [244; 193; 37; 4; 133; 128; 148; 77; 201; 95; 172; 201;
                  185; 66; 157; 27; 66; 20; 70; 133] |}.
Proof.
  refine (eq_trans (undetected_bit_flips hello_header hello_decoded 37 7
                      hello_header_bytes hello_header_decoded _ _) _).
  - right. right. lia.
  - lia.
  - vm_compute. reflexivity.
Defined.

(** X16: in a buffer the decoder returns a header from, a single
    inverted bit in the tag or the version (offsets 0 to 5) makes it exit
    with the tag-and-version diagnostic. *)
Theorem tag_or_version_bit_flip
    (h : list Z) (header : MessageHeader) (i : nat) (k : Z) :
  bytes h -> (6 <= length h)%nat -> decode_fields h = Returns header ->
  (i < 6)%nat -> 0 <= k < 8 ->
  decode_fields (flip_bit h i k) = Exits BadMagicOrVersion.
Proof.
  intros Hh Hlen H Hi Hk.
  assert (Hh' : bytes (flip_bit h i k)) by (apply flip_bit_bytes; assumption).
  destruct (decode_fields_returns h header H) as (M & _).
  apply (bad_magic_or_version_iff h Hh) in M.
  destruct M as (A0 & A1 & A2 & A3 & A4 & A5).
  pose proof (at_flip_same h i k ltac:(lia)) as Hsame.
  destruct (flip_byte (at_ h i) k (at_byte h i Hh) Hk)
    as (delta & Hdelta & _ & Hrange).
  rewrite Hdelta in Hsame. clear Hdelta.
  unfold decode_fields.
  destruct (bad_magic_or_version (flip_bit h i k)) eqn:M'; [reflexivity|].
  exfalso. apply (bad_magic_or_version_iff _ Hh') in M'.
  destruct M' as (B0 & B1 & B2 & B3 & B4 & B5).
  destruct i as [|[|[|[|[|[|i]]]]]]; try lia; rewrite Hsame in *; lia.
Qed.

Lemma tag_or_version_bit_flip_witness :
  decode_fields (flip_bit hello_header 0 3) = Exits BadMagicOrVersion.
Proof.
  apply (tag_or_version_bit_flip hello_header hello_decoded 0 3);
    first [exact hello_header_bytes | exact hello_header_decoded
          | simpl; lia | lia].
Defined.

(** X17: in a buffer the decoder returns a header from, a single
    inverted bit in the checksum field itself (offsets 16 and 17) makes it
    exit with the checksum diagnostic. *)
Theorem checksum_field_bit_flip
    (h : list Z) (header : MessageHeader) (i : nat) (k : Z) :
  bytes h -> (18 <= length h)%nat -> decode_fields h = Returns header ->
  i = 16%nat \/ i = 17%nat -> 0 <= k < 8 ->
  decode_fields (flip_bit h i k) = Exits ChecksumMismatch.
Proof.
  intros Hh Hlen H Hi Hk.
  assert (Hh' : bytes (flip_bit h i k)) by (apply flip_bit_bytes; assumption).
  destruct (decode_fields_returns h header H) as (M & C & _).
  unfold decode_fields.
  assert (M' : bad_magic_or_version (flip_bit h i k) = false).
  { rewrite <- M. unfold bad_magic_or_version, version_of.
    rewrite !at_flip_other by lia. reflexivity. }
  rewrite M'.
  rewrite currentchecksum_of_value, embedded_checksum_value in *
    by assumption.
  pose proof (at_flip_same h i k ltac:(lia)) as Hsame.
  destruct (flip_byte (at_ h i) k (at_byte h i Hh) Hk)
    as (delta & Hdelta & _ & Hrange).
  rewrite Hdelta in Hsame. clear Hdelta.
  match goal with |- (if negb (?a =? ?b) then _ else _) = _ =>
    destruct (Z.eqb_spec a b) as [E|_]; [exfalso | reflexivity] end.
  rewrite (at_flip_other h i k 4), (at_flip_other h i k 5),
    (at_flip_other h i k 6), (at_flip_other h i k 7),
    (at_flip_other h i k 8), (at_flip_other h i k 9),
    (at_flip_other h i k 10), (at_flip_other h i k 11),
    (at_flip_other h i k 14), (at_flip_other h i k 15) in E by lia.
  rewrite C in E. clear C.
  destruct Hi as [-> | ->]; rewrite Hsame in E;
    [rewrite (at_flip_other h 16 k 17) in E by lia
    | rewrite (at_flip_other h 17 k 16) in E by lia]; lia.
Qed.

Lemma checksum_field_bit_flip_witness :
  decode_fields (flip_bit hello_header 16 4) = Exits ChecksumMismatch.
Proof.
  apply (checksum_field_bit_flip hello_header hello_decoded 16 4);
    first [exact hello_header_bytes | exact hello_header_decoded
          | simpl; lia | lia].
Defined.

(** ** More on getMessage *)

(** X18: [getMessage] exits with the message-type diagnostic exactly when
    a required type other than 0 is given and the type of the header
    differs from it; this test precedes the reading of the body and the
    tests on the key, and a required type of 0 lets every type through. *)
Theorem message_type_test
    (config : Configuration) (data0 sock : list Z) (requiredMsgType : Z)
    (header : MessageHeader) :
  receive_body config data0 sock requiredMsgType header = Exits InvalidMsgType
  <-> requiredMsgType <> 0 /\ header_type header <> requiredMsgType.
Proof.
  unfold receive_body, read.
  destruct (Z.eqb_spec requiredMsgType 0) as [E0|E0];
    destruct (Z.eqb_spec (header_type header) requiredMsgType) as [E1|E1];
    cbn [negb andb].
  4: { split; [intros _; split; assumption | reflexivity]. }
  all: split; [|intros [? ?]; contradiction].
  all: destruct (negb _), (hmac_key config); cbn [is_configured eqb negb];
    try discriminate;
    match goal with |- context [memcmp ?a ?b ?n =? 0] =>
      destruct (memcmp a b n =? 0) end; discriminate.
Qed.

Lemma firstn_app_exact {A} (l r : list A) n :
  length l = n -> firstn n (l ++ r) = l.
Proof.
  intros <-. rewrite <- (Nat.add_0_r (length l)).
  rewrite firstn_app_2, firstn_O, app_nil_r. reflexivity.
Qed.




Lemma land_hmac_flag_set x :
  Z.testbit x 3 = true ->
  Z.land (x mod 65536) _FLAGS_HMAC = _FLAGS_HMAC.
Proof.
  intros Hx. change 65536 with (2 ^ 16). change _FLAGS_HMAC with (2 ^ 3).
  apply Z.bits_inj'. intros i Hi.
  rewrite Z.land_spec, Z.pow2_bits_eqb by lia.
  destruct (Z.eqb_spec 3 i) as [<-|_].
  - rewrite Z.mod_pow2_bits_low, Hx by lia. reflexivity.
  - apply andb_false_r.
Qed.

(** X20: sender and receiver with the same key.  The header stored for a
    body of at most 256 bytes, once its fields are decoded, and that body
    on the stream make [getMessage] exit with the hmac diagnostic: the
    genuine message is the one refused. *)
Theorem same_key_message_is_refused
    (config : Configuration) (key : list Z) (msgtype : Z) (body : list Z)
    (flags sequenceNr : Z) (header data0 : list Z) (requiredMsgType : Z) :
  hmac_key config = Some key ->
  ~ In NUL body -> (length body <= 256)%nat ->
  createMsgHeader config msgtype (Some (body ++ [NUL])) flags sequenceNr
  = Returns header ->
  requiredMsgType = 0 \/ requiredMsgType = msgtype mod 65536 ->
  exists decoded,
    decode_fields header = Returns decoded
    /\ receive_body config data0 body requiredMsgType decoded
       = Exits HmacMismatch.
Proof.
  intros Hkey Hbody Hlen H Hreq.
  pose proof (first_nul_app_nul body [] Hbody) as Hn.
  eexists. split; [apply (decode_fields_created _ _ _ _ _ _ _ H Hn)|].
  unfold receive_body, read. cbn [header_type header_flags header_hmac].
  rewrite Hkey. cbn [is_configured].
  assert (Ht : negb (requiredMsgType =? 0)
               && negb (msgtype mod 65536 =? requiredMsgType) = false).
  { destruct Hreq as [-> | ->]; [reflexivity|].
    rewrite Z.eqb_refl. apply andb_false_r. }
  rewrite Ht, land_hmac_flag. cbn [Z.eqb negb].
  change (_FLAGS_HMAC =? 0) with false. cbn [negb].
  rewrite (firstn_all2 body) by lia.
  rewrite !hmac_sha1_of_read.
  match goal with |- context [memcmp ?a ?b ?n =? 0] =>
    replace (memcmp a b n) with 0; [reflexivity|] end.
  symmetry. apply memcmp_zero; try apply hmac_sha1_length. reflexivity.
Qed.

Lemma same_key_message_is_refused_witness :
  exists decoded,
    decode_fields hello_header = Returns decoded
    /\ receive_body cylc_config (repeat 0 256) (bytes_of_string "hello")
         _MSG_INVOKE decoded
       = Exits HmacMismatch.
Proof.
  apply (same_key_message_is_refused cylc_config [99; 121; 108; 99; 0]
           _MSG_INVOKE (bytes_of_string "hello") 0 0);
    first [exact hello_header_created | exact hello_has_no_nul
          | reflexivity | (simpl; lia) | (right; reflexivity)].
Defined.

(** X21: a header stored with the HMAC bit, because the sender has a key
    or because the caller passed the bit, is refused by a receiver without
    a key with the symmetry diagnostic, once its fields are decoded and
    its type accepted, whatever the body.  A sender without a key that is
    given _FLAGS_HMAC thus builds a message its own side refuses. *)
Theorem flagged_header_refused_without_key
    (config config' : Configuration) (msgtype : Z) (d : list Z) (n : nat)
    (flags sequenceNr : Z) (header data0 sock : list Z)
    (requiredMsgType : Z) :
  createMsgHeader config msgtype (Some d) flags sequenceNr = Returns header ->
  first_nul d = Some n ->
  is_configured (hmac_key config) = true \/ Z.testbit flags 3 = true ->
  hmac_key config' = None ->
  requiredMsgType = 0 \/ requiredMsgType = msgtype mod 65536 ->
  exists decoded,
    decode_fields header = Returns decoded
    /\ receive_body config' data0 sock requiredMsgType decoded
       = Exits NotSymmetric.
Proof.
  intros H Hn Hflag Hkey' Hreq.
  eexists. split; [apply (decode_fields_created _ _ _ _ _ _ _ H Hn)|].
  unfold receive_body, read. cbn [header_type header_flags header_hmac].
  assert (Ht : negb (requiredMsgType =? 0)
               && negb (msgtype mod 65536 =? requiredMsgType) = false).
  { destruct Hreq as [-> | ->]; [reflexivity|].
    rewrite Z.eqb_refl. apply andb_false_r. }
  rewrite Ht, Hkey'.
  rewrite land_hmac_flag_set; [reflexivity|].
  destruct Hflag as [-> | Hbit].
  - rewrite Z.lor_spec. apply orb_true_r.
  - destruct (is_configured _); [|exact Hbit].
    rewrite Z.lor_spec, Hbit. reflexivity.
Qed.

Lemma flagged_header_refused_without_key_witness :
  exists decoded,
    decode_fields hello_header = Returns decoded
    /\ receive_body config_unset (repeat 0 256) (bytes_of_string "hello")
         0 decoded
       = Exits NotSymmetric.
Proof.
  apply (flagged_header_refused_without_key cylc_config config_unset
           _MSG_INVOKE (bytes_of_string "hello" ++ [NUL]) 5 0 0);
    first [exact hello_header_created | reflexivity
          | (left; reflexivity)].
Defined.

(** X22: sender and receiver without a key.  For a message type, flags
    without the HMAC bit and a sequence number of 16 bits, the header
    stored is decoded to that type, those flags and that sequence number,
    and lines 94-120 of [getMessage], given it, pass the type test and the
    key tests and reach line 118, the store through the pointer [msg.data]
    that was never assigned: no message is returned. *)
Theorem plain_message_reaches_the_store
    (config : Configuration) (msgtype : Z) (d : list Z) (n : nat)
    (flags sequenceNr : Z) (data0 sock : list Z) (requiredMsgType : Z) :
  hmac_key config = None ->
  first_nul d = Some n ->
  0 <= msgtype < 65536 -> 0 <= flags < 65536 -> 0 <= sequenceNr < 65536 ->
  Z.land flags _FLAGS_HMAC = 0 ->
  requiredMsgType = 0 \/ requiredMsgType = msgtype ->
  exists header decoded,
    createMsgHeader config msgtype (Some d) flags sequenceNr = Returns header
    /\ decode_fields header = Returns decoded
    /\ header_type decoded = msgtype
    /\ header_flags decoded = flags
    /\ header_sequence decoded = sequenceNr
    /\ receive_body config data0 sock requiredMsgType decoded
       = Undefined StoreUnassigned.
Proof.
  intros Hkey Hn Ht Hf Hs Hclear Hreq.
  assert (H := createMsgHeader_returns config msgtype d n flags sequenceNr
                 Hn ltac:(lia)).
  eexists. eexists. split; [exact H|].
  split; [apply (decode_fields_created _ _ _ _ _ _ _ H Hn)|].
  cbn [header_type header_flags header_sequence].
  rewrite Hkey. cbn [is_configured]. rewrite !Z.mod_small by lia.
  repeat split.
  unfold receive_body, read, return_message.
  cbn [header_type header_flags header_sequence header_hmac].
  rewrite Hkey.
  assert (Hty : negb (requiredMsgType =? 0)
                && negb (msgtype =? requiredMsgType) = false).
  { destruct Hreq as [-> | ->]; [reflexivity|].
    rewrite Z.eqb_refl. apply andb_false_r. }
  rewrite Hty, Hclear. reflexivity.
Qed.

Lemma plain_message_reaches_the_store_witness :
  exists header decoded,
    createMsgHeader config_unset _MSG_RESULT
      (Some (bytes_of_string "hello" ++ [NUL])) 0 7 = Returns header
    /\ decode_fields header = Returns decoded
    /\ header_type decoded = _MSG_RESULT
    /\ header_flags decoded = 0
    /\ header_sequence decoded = 7
    /\ receive_body config_unset (repeat 0 256) (bytes_of_string "hello")
         _MSG_RESULT decoded
       = Undefined StoreUnassigned.
Proof.
  apply (plain_message_reaches_the_store config_unset _MSG_RESULT
           (bytes_of_string "hello" ++ [NUL]) 5 0 7);
    first [reflexivity | (unfold _MSG_RESULT; lia) | lia
          | (right; reflexivity)].
Defined.

(** X23: [getMessage] as a whole, with its header array of 38 bytes.  The
    call exits with the size diagnostic when the array, after the read of
    the header, holds a NUL byte, and otherwise runs [strlen] past the end
    of the array; it has no other outcome, and never gets as far as the
    tag, the checksum, the message type or the key. *)
Theorem getMessage_outcomes
    (config : Configuration) (headerdata0 data0 sock : list Z)
    (requiredMsgType : Z) :
  length headerdata0 = 38%nat ->
  let headerdata :=
    firstn 38 sock ++ skipn (length (firstn 38 sock)) headerdata0 in
  (In NUL headerdata ->
   getMessage config headerdata0 data0 sock requiredMsgType
   = Exits SizeMismatch)
  /\ (~ In NUL headerdata ->
      getMessage config headerdata0 data0 sock requiredMsgType
      = Undefined StrlenUnterminated).
Proof.
  intros Hlen headerdata.
  assert (Hbuf : length headerdata = 38%nat).
  { subst headerdata. rewrite length_app, length_skipn, Hlen.
    pose proof (firstn_le_length 38 sock). lia. }
  unfold getMessage, read. change (Z.to_nat HEADER_SIZE) with 38%nat.
  fold headerdata. rewrite parseMessageHeader_by_first_nul. split.
  - intros Hin. rewrite <- (firstn_all headerdata), Hbuf in Hin.
    destruct (first_nul_in_prefix headerdata 38 Hin) as (n & -> & Hlt).
    destruct (Nat.eqb_spec n 38); [lia | reflexivity].
  - intros Hnot. rewrite (first_nul_none headerdata Hnot). reflexivity.
Qed.

Lemma getMessage_outcomes_witness :
  getMessage cylc_config (repeat 1 38) (repeat 0 256)
    (hello_header ++ bytes_of_string "hello") _MSG_INVOKE
  = Exits SizeMismatch
  /\ getMessage cylc_config (repeat 1 38) (repeat 0 256) [80; 89] 0
     = Undefined StrlenUnterminated.
Proof.
  split.
  - apply (proj1 (getMessage_outcomes cylc_config (repeat 1 38) (repeat 0 256)
                    (hello_header ++ bytes_of_string "hello") _MSG_INVOKE
                    eq_refl)).
    simpl. tauto.
  - apply (proj2 (getMessage_outcomes cylc_config (repeat 1 38) (repeat 0 256)
                    [80; 89] 0 eq_refl)).
    simpl. intuition discriminate.
Defined.

(** ** client.c: the request of retrive_grid_file *)

Example get_request_example :
  get_request (bytes_of_string "/a" ++ [NUL]) (repeat 170 12)
  = Some (bytes_of_string "GET /a " ++ [13; 10; NUL; 170]).
Proof. vm_compute. reflexivity. Qed.

(** The call of [main]: the archive is saved as cdo-1.3.2.tar.gz. *)
Example main_download_name :
  forall get,
    output_name
      (bytes_of_string "/fileadmin/software/cdo/cdo-1.3.2.tar.gz" ++ [NUL])
      get
    = bytes_of_string "cdo-1.3.2.tar.gz".
Proof. intros get. vm_compute. reflexivity. Qed.

Lemma cstring_prefix (body junk : list Z) :
  firstn (S (length body)) (body ++ NUL :: junk) = body ++ [NUL].
Proof.
  rewrite firstn_app, firstn_all2 by lia.
  replace (S (length body) - length body)%nat with 1%nat by lia.
  reflexivity.
Qed.

Lemma strcpy_string (dest body junk : list Z) :
  ~ In NUL body -> (length body + 1 <= length dest)%nat ->
  strcpy dest (body ++ NUL :: junk)
  = Some (body ++ NUL :: skipn (length body + 1) dest).
Proof.
  intros Hbody Hfit. unfold strcpy, store.
  rewrite (first_nul_app_nul body junk Hbody), cstring_prefix.
  rewrite length_app. cbn [length Nat.add firstn app].
  destruct (Nat.leb_spec (length body + 1) (length dest)); [|lia].
  rewrite <- app_assoc. reflexivity.
Qed.

Lemma strcat_string (a r body junk : list Z) :
  ~ In NUL a -> ~ In NUL body -> (length body <= length r)%nat ->
  strcat (a ++ NUL :: r) (body ++ NUL :: junk)
  = Some (a ++ body ++ NUL :: skipn (length body) r).
Proof.
  intros Ha Hbody Hfit. unfold strcat, store.
  rewrite (first_nul_app_nul a r Ha), (first_nul_app_nul body junk Hbody).
  rewrite cstring_prefix, !length_app. cbn [length].
  destruct (Nat.leb_spec (length a + (length body + 1))
              (length a + S (length r))); [|lia].
  rewrite firstn_app, firstn_all, Nat.sub_diag. cbn [firstn].
  rewrite app_nil_r, skipn_app.
  rewrite (skipn_all2 a) by lia.
  replace (length a + (length body + 1) - length a)%nat
    with (S (length body)) by lia.
  cbn [skipn app]. rewrite <- app_assoc. reflexivity.
Qed.

Lemma firstn_one_skipn (l : list Z) k :
  (k < length l)%nat -> firstn 1 (skipn k l) = [nth k l 0].
Proof.
  revert k. induction l as [|x l IH]; intros [|k] Hk; simpl in *;
    try lia; auto. apply IH. lia.
Qed.

Lemma not_in_app (x : Z) (a b : list Z) :
  ~ In x a -> ~ In x b -> ~ In x (a ++ b).
Proof. intros Ha Hb Hin. apply in_app_or in Hin. tauto. Qed.

(** The three string calls of lines 71-73 on a block of the right size. *)
Lemma assemble_steps (name junk block0 : list Z) :
  ~ In NUL name ->
  length block0 = (length name + 10)%nat ->
  obind (strcpy block0 (bytes_of_string "GET " ++ [NUL])) (fun get =>
  obind (strcat get (name ++ NUL :: junk)) (fun get =>
  strcat get (bytes_of_string " " ++ [13; 10; NUL])))
  = Some ((bytes_of_string "GET " ++ name ++ bytes_of_string " " ++ [13; 10])
          ++ NUL :: skipn (length name + 8) block0).
Proof.
  intros Hname Hlen.
  assert (Hget : ~ In NUL (bytes_of_string "GET "))
    by (vm_compute; intuition discriminate).
  assert (Hend : ~ In NUL (bytes_of_string " " ++ [13; 10]))
    by (vm_compute; intuition discriminate).
  rewrite (strcpy_string block0 (bytes_of_string "GET ") [] Hget)
    by (change (length (bytes_of_string "GET ")) with 4%nat; lia).
  cbn [obind]. change (length (bytes_of_string "GET ") + 1)%nat with 5%nat.
  rewrite (strcat_string (bytes_of_string "GET ") (skipn 5 block0) name junk
             Hget Hname) by (rewrite length_skipn; lia).
  cbn [obind]. rewrite skipn_skipn.
  rewrite app_assoc.
  change (bytes_of_string " " ++ [13; 10; NUL])
    with ((bytes_of_string " " ++ [13; 10]) ++ NUL :: []).
  rewrite (strcat_string (bytes_of_string "GET " ++ name)
             (skipn (length name + 5) block0)
             (bytes_of_string " " ++ [13; 10]) []
             (not_in_app _ _ _ Hget Hname) Hend)
    by (rewrite length_skipn; change (length _) with 3%nat at 1; lia).
  rewrite skipn_skipn.
  change (length (bytes_of_string " " ++ [13; 10])) with 3%nat.
  replace (3 + (length name + 5))%nat with (length name + 8)%nat by lia.
  rewrite <- !app_assoc. reflexivity.
Qed.

(** The block a call of lines 68-73 leaves, when it leaves one. *)
Lemma assemble_get_buffer (name junk block0 get : list Z) :
  ~ In NUL name ->
  length block0 = (length name + 10)%nat ->
  assemble_get (name ++ NUL :: junk) block0 = Some get ->
  get = (bytes_of_string "GET " ++ name ++ bytes_of_string " " ++ [13; 10])
        ++ NUL :: skipn (length name + 8) block0.
Proof.
  intros Hname Hlen. unfold assemble_get.
  rewrite (first_nul_app_nul name junk Hname). cbv zeta.
  destruct (negb _); [discriminate|].
  rewrite (assemble_steps name junk block0 Hname Hlen). congruence.
Qed.

(** Below 2^31 the lengths of lines 68 and 69 are the plain sums. *)
Lemma getlen_of_small n :
  0 <= n -> n + 10 < 2 ^ 31 ->
  getlen_of n = n + 9 /\ malloc_size (getlen_of n) = n + 10.
Proof.
  intros H0 Hn. unfold malloc_size, getlen_of, size_t_of.
  rewrite (Z.mod_small (4 + n)) by lia.
  rewrite (Z.mod_small (4 + n + 5)) by lia.
  rewrite (int_of_small (4 + n + 5)) by lia.
  rewrite (int_of_small (4 + n + 5 + 1)) by lia.
  rewrite (Z.mod_small (4 + n + 5 + 1)) by lia.
  rewrite Z.mul_1_l, Z.mod_small by lia. lia.
Qed.

(** X25: what [retrive_grid_file] writes to the server.  For a file name
    of n bytes, n + 10 below 2^31, the block has n + 10 bytes and the
    request line, GET, the name, a space, CR and LF, has n + 7; the
    [write] of n + 9 bytes sends the line followed by the NUL that ends it
    and by one byte of the block that was never assigned. *)
Theorem get_request_bytes (name junk block0 : list Z) :
  ~ In NUL name ->
  Z.of_nat (length name) + 10 < 2 ^ 31 ->
  length block0 = (length name + 10)%nat ->
  get_request (name ++ NUL :: junk) block0
  = Some (bytes_of_string "GET " ++ name ++ bytes_of_string " "
          ++ [13; 10] ++ [NUL; nth (length name + 8) block0 0]).
Proof.
  intros Hname Hsmall Hlen. unfold get_request, assemble_get.
  rewrite (first_nul_app_nul name junk Hname). cbv zeta.
  destruct (getlen_of_small (Z.of_nat (length name)) ltac:(lia) Hsmall)
    as [Hgetlen Hsize].
  rewrite Hsize, Hgetlen.
  replace (Z.of_nat (length block0) =? Z.of_nat (length name) + 10) with true
    by (symmetry; apply Z.eqb_eq; lia).
  cbn [negb]. rewrite (assemble_steps name junk block0 Hname Hlen).
  cbn [obind]. unfold written, size_t_of.
  rewrite Z.mod_small by lia.
  assert (Hline : length (bytes_of_string "GET " ++ name
                          ++ bytes_of_string " " ++ [13; 10]%Z)
                  = (length name + 7)%nat).
  { rewrite !length_app. change (length (bytes_of_string "GET ")) with 4%nat.
    change (length (bytes_of_string " ")) with 1%nat. simpl. lia. }
  match goal with |- (if ?c then _ else _) = _ =>
    replace c with true end.
  2: { symmetry. apply Z.leb_le. rewrite length_app, Hline. cbn [length].
       rewrite length_skipn. lia. }
  f_equal.
  replace (Z.to_nat (Z.of_nat (length name) + 9))
    with (length (bytes_of_string "GET " ++ name
                  ++ bytes_of_string " " ++ [13; 10]%Z) + 2)%nat
    by (rewrite Hline; lia).
  rewrite firstn_app_2, firstn_cons.
  rewrite (firstn_one_skipn block0 (length name + 8)) by lia.
  rewrite <- !app_assoc. reflexivity.
Qed.

Lemma get_request_bytes_witness :
  get_request (bytes_of_string "hello" ++ NUL :: []) (repeat 170 15)
  = Some (bytes_of_string "GET " ++ bytes_of_string "hello"
          ++ bytes_of_string " " ++ [13; 10]
          ++ [NUL; nth (length (bytes_of_string "hello") + 8)
                       (repeat 170 15) 0]).
Proof.
  apply (get_request_bytes (bytes_of_string "hello") [] (repeat 170 15)).
  - exact hello_has_no_nul.
  - reflexivity.
  - reflexivity.
Defined.

Lemma strrchr_absent (name junk : list Z) (c : Z) :
  ~ In c name -> strrchr (name ++ NUL :: junk) c = None.
Proof.
  induction name as [|x name IH]; intros Hc; [reflexivity|].
  simpl. destruct (x =? NUL); [reflexivity|].
  rewrite IH by (intros Hin; apply Hc; right; exact Hin).
  destruct (Z.eqb_spec x c) as [->|_]; [|reflexivity].
  exfalso. apply Hc. left. reflexivity.
Qed.

Lemma strrchr_last (dir base junk : list Z) (c : Z) :
  c <> NUL -> ~ In NUL dir -> ~ In c base ->
  strrchr (dir ++ c :: base ++ NUL :: junk) c = Some (length dir).
Proof.
  intros Hc Hdir Hbase. induction dir as [|x dir IH].
  - simpl. destruct (Z.eqb_spec c NUL) as [E|_]; [contradiction|].
    rewrite (strrchr_absent base junk c Hbase), Z.eqb_refl. reflexivity.
  - simpl. destruct (Z.eqb_spec x NUL) as [->|_].
    + exfalso. apply Hdir. left. reflexivity.
    + rewrite IH by (intros Hin; apply Hdir; right; exact Hin). reflexivity.
Qed.

Lemma string_at_app_nul (body junk : list Z) :
  ~ In NUL body -> string_at (body ++ NUL :: junk) = body.
Proof.
  intros Hbody. unfold string_at. rewrite (first_nul_app_nul _ _ Hbody).
  rewrite firstn_app, firstn_all, Nat.sub_diag. cbn [firstn].
  apply app_nil_r.
Qed.

(** X26: the file [retrive_grid_file] opens for the download is named by
    what follows the last slash of the file name; for a file name with no
    slash it is named by the whole request line, GET, the name, a space,
    CR and LF. *)
Theorem download_file_name (name junk block0 get : list Z) :
  ~ In NUL name ->
  length block0 = (length name + 10)%nat ->
  assemble_get (name ++ NUL :: junk) block0 = Some get ->
  (forall dir base,
     name = dir ++ slash :: base -> ~ In slash base ->
     output_name (name ++ NUL :: junk) get = base)
  /\ (~ In slash name ->
      output_name (name ++ NUL :: junk) get
      = bytes_of_string "GET " ++ name ++ bytes_of_string " " ++ [13; 10]).
Proof.
  intros Hname Hlen Hget. split.
  - intros dir base -> Hbase. unfold output_name.
    assert (Hdir : ~ In NUL dir)
      by (intros Hin; apply Hname, in_or_app; left; exact Hin).
    assert (Hb : ~ In NUL base)
      by (intros Hin; apply Hname, in_or_app; right; right; exact Hin).
    rewrite <- app_assoc. cbn [app].
    rewrite (strrchr_last dir base junk slash) by (auto; discriminate).
    replace (S (length dir)) with (length (dir ++ [slash]))
      by (rewrite length_app; simpl; lia).
    replace (dir ++ slash :: base ++ NUL :: junk)
      with ((dir ++ [slash]) ++ base ++ NUL :: junk)
      by (rewrite <- app_assoc; reflexivity).
    rewrite skipn_app, skipn_all, Nat.sub_diag. cbn [skipn app].
    apply string_at_app_nul, Hb.
  - intros Hslash. unfold output_name.
    rewrite (strrchr_absent name junk slash Hslash).
    rewrite (assemble_get_buffer name junk block0 get Hname Hlen Hget).
    apply string_at_app_nul.
    apply not_in_app; [vm_compute; intuition discriminate|].
    apply not_in_app; [exact Hname | vm_compute; intuition discriminate].
Qed.

Lemma download_file_name_witness :
  exists get,
    assemble_get (bytes_of_string "/a/hello" ++ NUL :: []) (repeat 170 18)
    = Some get
    /\ output_name (bytes_of_string "/a/hello" ++ NUL :: []) get
       = bytes_of_string "hello".
Proof.
  eexists. split; [vm_compute; reflexivity|].
  apply (proj1 (download_file_name (bytes_of_string "/a/hello") []
                  (repeat 170 18) _
                  ltac:(vm_compute; intuition discriminate) eq_refl
                  ltac:(vm_compute; reflexivity))
           (bytes_of_string "/a") (bytes_of_string "hello")).
  - reflexivity.
  - vm_compute. intuition discriminate.
Defined.

Lemma lor_hmac_16_bits flags :
  0 <= flags < 65536 ->
  Z.lor flags _FLAGS_HMAC mod 65536 = Z.lor flags _FLAGS_HMAC.
Proof.
  intros Hf. change 65536 with (2 ^ 16).
  rewrite <- !Z.land_ones, Z.land_lor_distr_l, !Z.land_ones by lia.
  rewrite (Z.mod_small flags) by (change (2 ^ 16) with 65536; lia).
  reflexivity.
Qed.

(** X27: the round trip through the statements after the size test.  For
    a message type, flags and sequence number of 16 bits and a body
    shorter than 2^31 bytes, the fields decoded from a stored header are
    the type, the sequence number and the body length given, the flags
    given (with the HMAC bit when a key is configured) and the digest
    stored. *)
Theorem stored_fields_read_back
    (config : Configuration) (msgtype : Z) (d : list Z) (n : nat)
    (flags sequenceNr : Z) (header : list Z) :
  0 <= msgtype < 65536 -> 0 <= flags < 65536 -> 0 <= sequenceNr < 65536 ->
  first_nul d = Some n -> Z.of_nat n < 2 ^ 31 ->
  createMsgHeader config msgtype (Some d) flags sequenceNr = Returns header ->
  decode_fields header
  = Returns {| header_type := msgtype;
               header_flags :=
                 if is_configured (hmac_key config)
                 then Z.lor flags _FLAGS_HMAC else flags;
               header_sequence := sequenceNr;
               header_datasize := Z.of_nat n;
               header_hmac :=
                 match hmac_key config with
                 | Some key => hmac_sha1 key (keyLen config) d (Z.of_nat n)
                 | None => repeat 0 20
                 end |}.
Proof.
  intros Ht Hf Hs Hn Hl H.
  rewrite (decode_fields_created _ _ _ _ _ _ _ H Hn).
  destruct (createMsgHeader_inv _ _ _ _ _ _ H) as (d' & n' & Hd & Hn' & _ & ->).
  injection Hd as <-. rewrite Hn in Hn'. injection Hn' as <-.
  cbv zeta. rewrite header_bytes_datasize by (try apply sign_body_bytes; lia).
  destruct (is_configured (hmac_key config));
    rewrite ?(lor_hmac_16_bits flags Hf), !Z.mod_small by lia; reflexivity.
Qed.

Lemma stored_fields_read_back_witness :
  decode_fields hello_header
  = Returns {| header_type := _MSG_INVOKE;
               header_flags :=
                 if is_configured (hmac_key cylc_config)
                 then Z.lor 0 _FLAGS_HMAC else 0;
               header_sequence := 0;
               header_datasize := Z.of_nat 5;
               header_hmac :=
                 match hmac_key cylc_config with
                 | Some key =>
                     hmac_sha1 key (keyLen cylc_config)
                       (bytes_of_string "hello" ++ [NUL]) (Z.of_nat 5)
                 | None => repeat 0 20
                 end |}.
Proof.
  assert (H16 : forall x, 0 <= x < 5 -> 0 <= x < 65536) by (intros; lia).
  exact (stored_fields_read_back cylc_config _MSG_INVOKE
           (bytes_of_string "hello" ++ [NUL]) 5 0 0 hello_header
           (H16 4 ltac:(lia)) (H16 0 ltac:(lia)) (H16 0 ltac:(lia))
           eq_refl eq_refl hello_header_created).
Defined.

Lemma getMessage_refuses_created_header_witness :
  getMessage config_unset (repeat 1 38) (repeat 0 256)
    (hello_header ++ bytes_of_string "hello") _MSG_INVOKE
  = Exits SizeMismatch.
Proof.
  apply (getMessage_refuses_created_header cylc_config _MSG_INVOKE
           (Some (bytes_of_string "hello" ++ [NUL])) 0 0 hello_header).
  exact hello_header_created.
Defined.

(** ** What stops getMessage before its tests *)

(** Every call ends in [parseMessageHeader]. *)
Lemma getMessage_stops_at_header config headerdata0 data0 sock requiredMsgType :
  getMessage config headerdata0 data0 sock requiredMsgType
  = Exits SizeMismatch
  \/ getMessage config headerdata0 data0 sock requiredMsgType
     = Exits BadMagicOrVersion
  \/ getMessage config headerdata0 data0 sock requiredMsgType
     = Undefined StrlenUnterminated.
Proof.
  unfold getMessage, read. rewrite parseMessageHeader_by_first_nul.
  destruct (first_nul _) as [n|]; [|right; right; reflexivity].
  destruct (n =? 38)%nat; [right; left | left]; reflexivity.
Qed.

(** The 38 bytes of a stored header at the head of the stream. *)
Lemma getMessage_header_bytes
    config headerdata0 data0 body requiredMsgType
    msgtype dataLen flags sequenceNr cs hm :
  length hm = 20%nat ->
  getMessage config headerdata0 data0
    (header_bytes msgtype dataLen flags sequenceNr cs hm ++ body)
    requiredMsgType
  = Exits SizeMismatch.
Proof.
  intros Hhm. unfold getMessage, read. change (Z.to_nat HEADER_SIZE) with 38%nat.
  rewrite (firstn_app_exact _ body 38)
    by (apply header_bytes_length, Hhm).
  rewrite header_bytes_size_mismatch. reflexivity.
Qed.

(** Lines 100-113 taken by themselves, given a decoded header whose type
    is accepted: flag and key that disagree give the symmetry diagnostic;
    flag clear and no key go on, without a hash, to the store of line
    118. *)
Lemma symmetry_test_after_header
    (config : Configuration) (data0 sock : list Z)
    (requiredMsgType : Z) (header : MessageHeader) :
  requiredMsgType = 0 \/ header_type header = requiredMsgType ->
  (Z.land (header_flags header) _FLAGS_HMAC <> 0 ->
   hmac_key config = None ->
   receive_body config data0 sock requiredMsgType header = Exits NotSymmetric)
  /\ (Z.land (header_flags header) _FLAGS_HMAC = 0 ->
      hmac_key config <> None ->
      receive_body config data0 sock requiredMsgType header
      = Exits NotSymmetric)
  /\ (Z.land (header_flags header) _FLAGS_HMAC = 0 ->
      hmac_key config = None ->
      receive_body config data0 sock requiredMsgType header
      = Undefined StoreUnassigned).
Proof.
  intros Htype. unfold receive_body, read.
  rewrite (type_test_passes _ _ Htype).
  split; [|split]; intros Hf Hk.
  - destruct (Z.eqb_spec (Z.land (header_flags header) _FLAGS_HMAC) 0)
      as [E|_]; [contradiction|].
    rewrite Hk. reflexivity.
  - rewrite Hf. destruct (hmac_key config); [reflexivity | contradiction].
  - rewrite Hf, Hk. reflexivity.
Qed.

(** The outcomes of lines 94-120: one of the three exits, or the store of
    line 118. *)
Lemma receive_body_outcomes config data0 sock requiredMsgType header :
  (exists f, receive_body config data0 sock requiredMsgType header = Exits f)
  \/ receive_body config data0 sock requiredMsgType header
     = Undefined StoreUnassigned.
Proof.
  unfold receive_body, read.
  destruct (negb (requiredMsgType =? 0) && _); [left; eexists; reflexivity|].
  destruct (negb (Z.land _ _ =? 0)), (hmac_key config);
    cbn [is_configured eqb negb];
    try (left; eexists; reflexivity); try (right; reflexivity).
  match goal with |- context [memcmp ?a ?b ?n =? 0] =>
    destruct (memcmp a b n =? 0) end;
    [left; eexists; reflexivity | right; reflexivity].
Qed.

(** C6: [getMessage] never gets as far as its symmetry test.  A stream
    that starts with a stored header, whether or not flag and key agree,
    makes it exit with the size diagnostic; no call exits with the
    symmetry diagnostic, and none returns. *)
Theorem symmetry_test_is_never_reached
    (config : Configuration) (msgtype : Z) (data : option (list Z))
    (flags sequenceNr : Z) (header : list Z)
    (config' : Configuration) (headerdata0 data0 body : list Z)
    (requiredMsgType : Z) :
  createMsgHeader config msgtype data flags sequenceNr = Returns header ->
  getMessage config' headerdata0 data0 (header ++ body) requiredMsgType
  = Exits SizeMismatch
  /\ (forall sock,
        getMessage config' headerdata0 data0 sock requiredMsgType
        <> Exits NotSymmetric)
  /\ (forall sock r,
        getMessage config' headerdata0 data0 sock requiredMsgType
        <> Returns r).
Proof.
  intros H.
  destruct (createMsgHeader_inv _ _ _ _ _ _ H) as (d & n & _ & _ & _ & ->).
  split; [|split].
  - cbv zeta. apply getMessage_header_bytes, sign_body_length.
  - intros sock.
    destruct (getMessage_stops_at_header config' headerdata0 data0 sock
                requiredMsgType) as [E|[E|E]]; rewrite E; discriminate.
  - intros sock r.
    destruct (getMessage_stops_at_header config' headerdata0 data0 sock
                requiredMsgType) as [E|[E|E]]; rewrite E; discriminate.
Qed.

(** The header built with the key "cylc" reaches a receiver without key,
    and the header built without key reaches one without key: the size
    diagnostic both times. *)
Lemma symmetry_test_is_never_reached_witness :
  getMessage config_unset (repeat 1 38) (repeat 0 256)
    (hello_header ++ bytes_of_string "hello") _MSG_INVOKE
  = Exits SizeMismatch
  /\ getMessage config_unset (repeat 1 38) (repeat 0 256)
       (plain_header ++ bytes_of_string "hello") _MSG_INVOKE
     = Exits SizeMismatch.
Proof.
  split.
  - apply (symmetry_test_is_never_reached cylc_config _MSG_INVOKE
             (Some (bytes_of_string "hello" ++ [NUL])) 0 0 hello_header
             config_unset (repeat 1 38) (repeat 0 256)
             (bytes_of_string "hello") _MSG_INVOKE hello_header_created).
  - apply (symmetry_test_is_never_reached config_unset _MSG_INVOKE
             (Some (bytes_of_string "hello" ++ [NUL])) 0 0 plain_header
             config_unset (repeat 1 38) (repeat 0 256)
             (bytes_of_string "hello") _MSG_INVOKE plain_header_created).
Defined.

(** C7: the checksum is written as the claim has it, and never tested.
    The two bytes at offset 16 of a stored header are, most significant
    first, the sum of message type, protocol version, body length, flags
    as stored, sequence number and PYRO_MAGIC modulo 65536, and the sum
    line 160 forms from the fields of that header equals them; yet
    [parseMessageHeader] refuses the header at its size test, and on no
    buffer does it get to accept or to refuse a checksum. *)
Theorem checksum_is_written_but_never_tested
    (config : Configuration) (msgtype : Z) (d : list Z) (n : nat)
    (flags sequenceNr : Z) (header : list Z) :
  createMsgHeader config msgtype (Some d) flags sequenceNr = Returns header ->
  first_nul d = Some n ->
  256 * at_ header 16 + at_ header 17
  = (msgtype + PROTOCOL_VERSION + Z.of_nat n
     + (if is_configured (hmac_key config)
        then Z.lor flags _FLAGS_HMAC else flags)
     + sequenceNr + PYRO_MAGIC) mod 65536
  /\ currentchecksum_of header = embedded_checksum header
  /\ (forall rest,
        parseMessageHeader (Some (header ++ rest)) = Exits SizeMismatch)
  /\ (forall headerdata,
        parseMessageHeader headerdata <> Exits ChecksumMismatch
        /\ forall decoded, parseMessageHeader headerdata <> Returns decoded).
Proof.
  intros H Hn.
  pose proof (decode_fields_created _ _ _ _ _ _ _ H Hn) as Hdec.
  destruct (decode_fields_returns _ _ Hdec) as (_ & Hsum & _).
  destruct (createMsgHeader_inv _ _ _ _ _ _ H) as (d' & n' & Hd & Hn' & _ & E).
  injection Hd as <-. rewrite Hn in Hn'. injection Hn' as <-.
  split; [|split; [exact Hsum|split]].
  - subst header. cbv zeta. rewrite sign_body_flags. header_at.
    rewrite be16_bytes. apply headerchecksum_of_mod.
  - intros rest. subst header. cbv zeta. apply header_bytes_size_mismatch.
  - intros [h|].
    + rewrite parseMessageHeader_by_first_nul.
      destruct (first_nul h) as [m|]; [destruct (m =? 38)%nat|];
        split; try discriminate; intros decoded; discriminate.
    + split; [discriminate | intros decoded; discriminate].
Qed.

Lemma checksum_is_written_but_never_tested_witness :
  256 * at_ hello_header 16 + at_ hello_header 17
  = (4 + 44 + 5 + 8 + 0 + 0x34e9) mod 65536
  /\ currentchecksum_of hello_header = embedded_checksum hello_header
  /\ parseMessageHeader (Some (hello_header ++ [])) = Exits SizeMismatch.
Proof.
  destruct (checksum_is_written_but_never_tested cylc_config _MSG_INVOKE
              (bytes_of_string "hello" ++ [NUL]) 5 0 0 hello_header
              hello_header_created eq_refl) as (Hw & Hs & Hp & _).
  split; [exact Hw|]. split; [exact Hs|]. exact (Hp []).
Defined.



(** C9: no message is returned, and no data are copied into one.  A call
    of lines 94-120 that passes the type test and the key tests reaches
    line 118, the store of 20 bytes through the pointer [msg.data], which
    was never assigned; lines 94-120 therefore end in an exit or in that
    store, and [getMessage], which stops at the size test, does not get to
    them. *)
Theorem message_data_is_never_stored
    (config : Configuration) (headerdata0 data0 sock : list Z)
    (requiredMsgType : Z) (header : MessageHeader) :
  (requiredMsgType = 0 \/ header_type header = requiredMsgType ->
   Z.land (header_flags header) _FLAGS_HMAC = 0 ->
   hmac_key config = None ->
   receive_body config data0 sock requiredMsgType header
   = Undefined StoreUnassigned)
  /\ (forall r,
        receive_body config data0 sock requiredMsgType header <> Returns r)
  /\ (forall r,
        getMessage config headerdata0 data0 sock requiredMsgType
        <> Returns r).
Proof.
  split; [|split].
  - intros Htype Hf Hk.
    apply (symmetry_test_after_header config data0 sock requiredMsgType
             header Htype); assumption.
  - intros r.
    destruct (receive_body_outcomes config data0 sock requiredMsgType header)
      as [[f E]|E]; rewrite E; discriminate.
  - intros r.
    destruct (getMessage_stops_at_header config headerdata0 data0 sock
                requiredMsgType) as [E|[E|E]]; rewrite E; discriminate.
Qed.

Lemma message_data_is_never_stored_witness :
  receive_body config_unset (repeat 0 256)
    (bytes_of_string "what do ya want for nothing?") 0 plain_result
  = Undefined StoreUnassigned.
Proof.
  apply (proj1 (message_data_is_never_stored config_unset (repeat 1 38)
                  (repeat 0 256)
                  (bytes_of_string "what do ya want for nothing?") 0
                  plain_result));
    first [reflexivity | (left; reflexivity)].
Defined.
